(** * OpenSubtitles proxies: the token broker and the request handlers

    The repository holds three variants of one proxy in front of the
    OpenSubtitles REST API:

    - [Server]  : opensubtitles-proxy-server.mjs   (Node.js http server)
    - [Worker]  : opensubtitles-proxy.worker.js    (Cloudflare Worker)
    - [Tronapp] : the Cloudflare Worker "tronapp-subproxy"

    Each variant keeps a login token in module-level variables.  Only the
    Node server shares one pending login between concurrent requests; its
    [osLogin] is modelled as a transition system over the module variables,
    the table of login promises and the suspended callers.  The handlers of
    the two workers are modelled as functions of the request, the module
    state, the clock and the replies of the upstream API, returning the new
    state, the response and the upstream calls they issued. *)

From stdpp Require Import base list strings gmap.
From Stdlib Require Import Ascii ZArith Lia.

(** ** JavaScript values as the proxies observe them *)

Module JS.

(** A value read from a parsed JSON reply or from the environment.  The
    proxies only test such values for truthiness, convert them with
    [String(v)] (or a template literal), and call [.replace] on them, so a
    non-string value is kept as its truthiness and its string conversion. *)
Inductive value : Type :=
  | VUndef                                      (* undefined, null, absent *)
  | VStr (s : string)
  | VOther (is_truthy : bool) (as_string : string). (* number, boolean, object, array *)

Definition str_truthy (s : string) : bool :=
  match s with EmptyString => false | String _ _ => true end.

Definition truthy (v : value) : bool :=
  match v with
  | VUndef => false
  | VStr s => str_truthy s
  | VOther b _ => b
  end.

(** [String(v)] for a value that is not undefined/null is its string
    conversion; [String(undefined)] is the word itself. *)
Definition to_string (v : value) : string :=
  match v with
  | VUndef => "undefined"
  | VStr s => s
  | VOther _ s => s
  end.

(** [a || b] *)
Definition or (a b : value) : value := if truthy a then a else b.

(** [process.env.X || EmptyString], [searchParams.get(k) || EmptyString]:
    an optional string defaulted to the empty string. *)
Definition or_empty (o : option string) : string :=
  match o with Some s => s | None => EmptyString end.

(** [o || d] for an optional string [o] and a string [d]. *)
Definition or_default (o : option string) (d : string) : string :=
  match o with
  | Some s => if str_truthy s then s else d
  | None => d
  end.

(** White space removed by [String.prototype.trim], for code units below
    256: TAB, LF, VT, FF, CR, SPACE and NO-BREAK SPACE. *)
Definition is_ws (c : ascii) : bool :=
  let n := nat_of_ascii c in
  ((9 <=? n)%nat && (n <=? 13)%nat) || (n =? 32)%nat || (n =? 160)%nat.

Fixpoint trim_start (s : string) : string :=
  match s with
  | EmptyString => EmptyString
  | String c r => if is_ws c then trim_start r else s
  end.

Fixpoint trim_end (s : string) : string :=
  match s with
  | EmptyString => EmptyString
  | String c r =>
      match trim_end r with
      | EmptyString => if is_ws c then EmptyString else String c EmptyString
      | r' => String c r'
      end
  end.

(** [s.trim()] *)
Definition trim (s : string) : string := trim_end (trim_start s).

Definition dquote : ascii := "034"%char.

(** [s.replace(/DQUOTE/g, EmptyString)]: every double quote (code 34) is
    removed. *)
Fixpoint strip_dquotes (s : string) : string :=
  match s with
  | EmptyString => EmptyString
  | String c r =>
      if Ascii.eqb c dquote then strip_dquotes r else String c (strip_dquotes r)
  end.


(** [Response.ok]: the status is in the range 200-299. *)
Definition status_ok (status : Z) : bool :=
  ((200 <=? status) && (status <=? 299))%Z.

(** The result of [Number(x)] as far as the handlers test it
    ([Number.isFinite], comparison with 0); finite values are taken
    integral, as file ids are. *)
Inductive number : Type :=
  | NaN
  | Infinite (negative : bool)
  | Finite (z : Z).

Definition isFinite (n : number) : bool :=
  match n with Finite _ => true | _ => false end.

(** [n <= 0] *)
Definition le_zero (n : number) : bool :=
  match n with
  | NaN => false
  | Infinite negative => negative
  | Finite z => (z <=? 0)%Z
  end.

End JS.

(** ** HTTP plumbing shared by the three variants *)

Module Http.

(** Header names are case-insensitive: a [Headers] object (and Node's
    [setHeader]) keeps them in lower case, one value per name. *)
Definition lower_char (c : ascii) : ascii :=
  let n := nat_of_ascii c in
  if (65 <=? n)%nat && (n <=? 90)%nat then ascii_of_nat (n + 32) else c.

Fixpoint lower (s : string) : string :=
  match s with
  | EmptyString => EmptyString
  | String c r => String (lower_char c) (lower r)
  end.

Abbreviation Headers := (gmap string string).

(** [headers.set(name, value)] *)
Definition set (name value : string) (h : Headers) : Headers :=
  <[lower name := value]> h.

(** [headers.get(name)] *)
Definition get (name : string) (h : Headers) : option string :=
  h !! lower name.

(** The four CORS headers are present, with the values the three variants
    agree on for the origin and the methods. *)
Definition has_cors (h : Headers) : Prop :=
  get "Access-Control-Allow-Origin" h = Some "*" /\
  get "Access-Control-Allow-Methods" h = Some "GET,POST,OPTIONS" /\
  is_Some (get "Access-Control-Allow-Headers" h) /\
  is_Some (get "Access-Control-Max-Age" h).

(** [url.searchParams.get(k)]: the first value given for [k]. *)
Fixpoint param_get (k : string) (ps : list (string * string)) : option string :=
  match ps with
  | [] => None
  | (k', v) :: rest => if String.eqb k k' then Some v else param_get k rest
  end.

(** [params.set(k, v)] on a [URLSearchParams]: the first pair named [k]
    takes the value and later ones are dropped; appended when absent. *)
Fixpoint param_set (k v : string) (ps : list (string * string)) : list (string * string) :=
  match ps with
  | [] => [(k, v)]
  | (k', v') :: rest =>
      if String.eqb k k'
      then (k, v) :: filter (fun p => negb (String.eqb k (fst p))) rest
      else (k', v') :: param_set k v rest
  end.

(** An incoming request, after [new URL(req.url)]. *)
Record Request := {
  method : string;
  pathname : string;
  searchParams : list (string * string);
}.

(** [new Response(body, { status })] of the Workers, called with a body
    that is not null: the constructor throws a RangeError for a status
    outside 200-599, and a TypeError for a status that allows no body
    (204, 205 and 304; 101 and 103 are outside the range). *)
Inductive InitError : Type :=
  | StatusOutOfRange
  | NullBodyStatus.

Definition response_init (st : Z) : option InitError :=
  if ((st <? 200) || (599 <? st))%Z then Some StatusOutOfRange
  else if ((st =? 204) || (st =? 205) || (st =? 304))%Z then Some NullBodyStatus
  else None.

End Http.

(** ** What the upstream API answers *)

Module Upstream.

(** The parsed body of a [/login] reply, through the properties the
    proxies read: [json.message], [json.error], [json.token] and
    [json.data?.token]. *)
Record LoginJson := {
  lj_message : JS.value;
  lj_error : JS.value;
  lj_token : JS.value;
  lj_data_token : JS.value;
}.

(** An HTTP reply to [POST /login]: status, body text, and the body parsed
    as JSON ([None] when parsing fails or yields a falsy value). *)
Record LoginReply := {
  lr_status : Z;
  lr_txt : string;
  lr_json : option LoginJson;
}.

(** [fetch] either rejects (the network failed) or resolves with a reply. *)
Inductive fetched (R : Type) : Type :=
  | NetFail (msg : string)
  | Replied (r : R).
Arguments NetFail {R} msg.
Arguments Replied {R} r.

(** The parsed body of a [/download] reply. *)
Record DownloadJson := {
  dj_message : JS.value;
  dj_error : JS.value;
  dj_link : JS.value;
  dj_file_name : JS.value;
}.

Record DownloadReply := {
  dr_status : Z;
  dr_txt : string;
  dr_json : option DownloadJson;
}.

(** The reply to the GET of the signed link: status, headers, body. *)
Record FileReply := {
  fr_status : Z;
  fr_headers : Http.Headers;
  fr_body : string;
}.

(** The reply to [GET /subtitles]: status, body text, the body parsed as
    JSON through [json.message] and [json.error] and through the kind of
    value it is, and the response header [X-OpenSubtitles-Message]. *)
Record SearchJson := {
  sj_message : JS.value;
  sj_error : JS.value;
  sj_plain_object : bool;   (* an object that is not an array *)
}.

Record SearchReply := {
  sr_status : Z;
  sr_txt : string;
  sr_json : option SearchJson;
  sr_os_message : option string;
}.

End Upstream.

(** ** The Node server: opensubtitles-proxy-server.mjs *)

Module Server.

(** *** Configuration read at load time *)

Record ProcessEnv := {
  env_OS_USERNAME : option string;
  env_OS_PASSWORD : option string;
}.

(** [(process.env.OS_USERNAME || EmptyString).trim()] *)
Definition OS_USERNAME (e : ProcessEnv) : string :=
  JS.trim (JS.or_empty (env_OS_USERNAME e)).

(** [(process.env.OS_PASSWORD || EmptyString)] *)
Definition OS_PASSWORD (e : ProcessEnv) : string :=
  JS.or_empty (env_OS_PASSWORD e).

(** [!OS_USERNAME || !OS_PASSWORD] *)
Definition credentials_missing (e : ProcessEnv) : bool :=
  negb (JS.str_truthy (OS_USERNAME e)) || negb (JS.str_truthy (OS_PASSWORD e)).

(** Reuse window of a token, [8 * 60 * 60 * 1000] ms, and the spacing kept
    between two [/login] requests, 1100 ms. *)
Definition TOKEN_REUSE_MS : Z := 8 * 60 * 60 * 1000.
Definition LOGIN_SPACING_MS : Z := 1100.

(** *** Outcome of [osLogin] *)

Inductive Error : Type :=
  | MissingCredentials                          (* OS_USERNAME/OS_PASSWORD manquants *)
  | LoginRejected (status : Z) (msg : string)   (* Login OpenSubtitles (status): msg *)
  | TokenAbsent                                 (* token absent dans la reponse *)
  | FetchFailed (msg : string).                 (* fetch rejected *)

Inductive Result : Type :=
  | Ok (token : string)
  | Err (e : Error).

(** *** Module variables *)

Record Globals := {
  cachedToken : option string;      (* let cachedToken = null *)
  tokenSetAtMs : Z;                 (* let tokenSetAtMs = 0 *)
  loginInFlight : option nat;       (* let loginInFlight = null; a promise, by its index *)
  lastLoginAtMs : Z;                (* let lastLoginAtMs = 0 *)
}.

(** *** Promises and callers *)

(** Where the login started by one [osLogin] call stands.  The promise
    stored in [loginInFlight] is the one returned by [.finally], settled
    once the callback has run. *)
Inductive Phase : Type :=
  | WaitTimer (wake : Z)     (* awaiting setTimeout(r, 1100 - delta) *)
  | WaitFetch                (* POST /login sent, awaiting the reply *)
  | Settled (r : Result)     (* the async body returned or threw; .finally not yet run *)
  | Final (r : Result).      (* .finally has run: loginInFlight = null *)

(** An activation of [osLogin]: suspended on [await loginInFlight], or
    completed. *)
Inductive Caller : Type :=
  | Awaiting (id : nat)
  | Done (r : Result).

Record State := {
  vars : Globals;
  clock : Z;                     (* Date.now() *)
  logins : list Phase;           (* the login promises created so far *)
  callers : list Caller;         (* the osLogin activations so far *)
  netlog : list (nat * Z);       (* POST /login requests sent: by which login, when; newest first *)
}.

Definition init (t0 : Z) : State :=
  {| vars := {| cachedToken := None; tokenSetAtMs := 0;
                loginInFlight := None; lastLoginAtMs := 0 |};
     clock := t0; logins := []; callers := []; netlog := [] |}.

(** The token that [osLogin] reuses, if any:
    [cachedToken && ageMs < 8 * 60 * 60 * 1000] with
    [ageMs = Date.now() - tokenSetAtMs] *)
Definition fresh_token (g : Globals) (now : Z) : option string :=
  match cachedToken g with
  | Some t =>
      if JS.str_truthy t && (now - tokenSetAtMs g <? TOKEN_REUSE_MS)%Z
      then Some t else None
  | None => None
  end.

(** *** Reading the reply of [/login] (lines 124-135) *)

Definition reply_message (r : Upstream.LoginReply) : string :=
  match Upstream.lr_json r with
  | Some j =>
      let m := JS.or (Upstream.lj_message j) (Upstream.lj_error j) in
      if JS.truthy m then JS.to_string m else Upstream.lr_txt r
  | None => Upstream.lr_txt r
  end.

Definition reply_token (r : Upstream.LoginReply) : JS.value :=
  match Upstream.lr_json r with
  | Some j => JS.or (Upstream.lj_token j) (Upstream.lj_data_token j)
  | None => JS.VUndef
  end.

Definition login_result (f : Upstream.fetched Upstream.LoginReply) : Result :=
  match f with
  | Upstream.NetFail m => Err (FetchFailed m)
  | Upstream.Replied r =>
      if negb (JS.status_ok (Upstream.lr_status r))
      then Err (LoginRejected (Upstream.lr_status r) (reply_message r))
      else
        let token := reply_token r in
        if negb (JS.truthy token) then Err TokenAbsent
        else Ok (JS.to_string token)
  end.

(** *** Events of the event loop *)

Inductive Event : Type :=
  | EvCall                       (* a handler calls osLogin() *)
  | EvInvalidate                 (* handleDownload got 401: cachedToken = null; tokenSetAtMs = 0 *)
  | EvTick (d : Z)               (* d >= 0 milliseconds pass *)
  | EvTimer (id : nat)           (* the timer of login id fires *)
  | EvReply (id : nat) (f : Upstream.fetched Upstream.LoginReply)
  | EvFinally (id : nat)         (* the .finally callback of login id runs *)
  | EvResume (c : nat).          (* caller c resumes from await loginInFlight *)

(** The body of the async arrow function up to the request: record the
    attempt and send [POST /login]. *)
Definition send_login (id : nat) (s : State) (ph : list Phase) (cs : list Caller)
    (inflight : option nat) : State :=
  let g := vars s in
  {| vars := {| cachedToken := cachedToken g; tokenSetAtMs := tokenSetAtMs g;
                loginInFlight := inflight; lastLoginAtMs := clock s |};
     clock := clock s; logins := ph; callers := cs;
     netlog := (id, clock s) :: netlog s |}.

(** [osLogin()] up to its first suspension. *)
Definition osLogin_call (e : ProcessEnv) (s : State) : State :=
  let g := vars s in
  let finish (c : Caller) :=
    {| vars := g; clock := clock s; logins := logins s;
       callers := callers s ++ [c]; netlog := netlog s |} in
  if credentials_missing e then finish (Done (Err MissingCredentials))
  else
    match fresh_token g (clock s) with
    | Some t => finish (Done (Ok t))
    | None =>
        match loginInFlight g with
        | Some id => finish (Awaiting id)
        | None =>
            let id := length (logins s) in
            let delta := (clock s - lastLoginAtMs g)%Z in
            if (delta <? LOGIN_SPACING_MS)%Z then
              {| vars := {| cachedToken := cachedToken g;
                            tokenSetAtMs := tokenSetAtMs g;
                            loginInFlight := Some id;
                            lastLoginAtMs := lastLoginAtMs g |};
                 clock := clock s;
                 logins := logins s ++ [WaitTimer (clock s + (LOGIN_SPACING_MS - delta))];
                 callers := callers s ++ [Awaiting id];
                 netlog := netlog s |}
            else
              send_login id s (logins s ++ [WaitFetch])
                (callers s ++ [Awaiting id]) (Some id)
        end
    end.

(** The reply arrives: lines 124-135. *)
Definition login_reply (id : nat) (f : Upstream.fetched Upstream.LoginReply)
    (s : State) : State :=
  let g := vars s in
  let r := login_result f in
  {| vars := match r with
             | Ok t => {| cachedToken := Some t; tokenSetAtMs := clock s;
                          loginInFlight := loginInFlight g;
                          lastLoginAtMs := lastLoginAtMs g |}
             | Err _ => g
             end;
     clock := clock s; logins := <[id := Settled r]> (logins s);
     callers := callers s; netlog := netlog s |}.

(** [.finally(() => { loginInFlight = null; })] *)
Definition login_finally (id : nat) (r : Result) (s : State) : State :=
  let g := vars s in
  {| vars := {| cachedToken := cachedToken g; tokenSetAtMs := tokenSetAtMs g;
                loginInFlight := None; lastLoginAtMs := lastLoginAtMs g |};
     clock := clock s; logins := <[id := Final r]> (logins s);
     callers := callers s; netlog := netlog s |}.

(** [cachedToken = null; tokenSetAtMs = 0;] (handleDownload, lines 188-189) *)
Definition invalidate (s : State) : State :=
  let g := vars s in
  {| vars := {| cachedToken := None; tokenSetAtMs := 0;
                loginInFlight := loginInFlight g; lastLoginAtMs := lastLoginAtMs g |};
     clock := clock s; logins := logins s; callers := callers s; netlog := netlog s |}.

(** One turn of the event loop.  JavaScript runs each turn to its next
    [await] without interleaving, so a turn is one transition; the clock
    moves between turns only ([EvTick]); a timer fires no earlier than the
    time it was armed for; the reply of [fetch] is delivered with its body
    ([res.text()] adds no step of its own).  An event that is not enabled
    in [s] gives [None]. *)
Definition step (e : ProcessEnv) (s : State) (ev : Event) : option State :=
  match ev with
  | EvCall => Some (osLogin_call e s)
  | EvInvalidate => Some (invalidate s)
  | EvTick d =>
      if (0 <=? d)%Z then
        Some {| vars := vars s; clock := (clock s + d)%Z; logins := logins s;
                callers := callers s; netlog := netlog s |}
      else None
  | EvTimer id =>
      match logins s !! id with
      | Some (WaitTimer wake) =>
          if (wake <=? clock s)%Z then
            Some (send_login id s (<[id := WaitFetch]> (logins s)) (callers s)
                    (loginInFlight (vars s)))
          else None
      | _ => None
      end
  | EvReply id f =>
      match logins s !! id with
      | Some WaitFetch => Some (login_reply id f s)
      | _ => None
      end
  | EvFinally id =>
      match logins s !! id with
      | Some (Settled r) => Some (login_finally id r s)
      | _ => None
      end
  | EvResume c =>
      match callers s !! c with
      | Some (Awaiting id) =>
          match logins s !! id with
          | Some (Final r) =>
              Some {| vars := vars s; clock := clock s; logins := logins s;
                      callers := <[c := Done r]> (callers s); netlog := netlog s |}
          | _ => None
          end
      | _ => None
      end
  end.

(** A schedule is a list of events; [run] is undefined when an event is not
    enabled where it occurs. *)
Fixpoint run (e : ProcessEnv) (s : State) (evs : list Event) : option State :=
  match evs with
  | [] => Some s
  | ev :: rest =>
      match step e s ev with
      | Some s' => run e s' rest
      | None => None
      end
  end.

Definition reachable (e : ProcessEnv) (s : State) : Prop :=
  exists t0 evs, run e (init t0) evs = Some s.

(** *** Properties of states and schedules *)

Definition is_final (ph : Phase) : bool :=
  match ph with Final _ => true | _ => false end.

(** The login has not yet received the reply of [/login]. *)
Definition is_waiting (ph : Phase) : bool :=
  match ph with WaitTimer _ | WaitFetch => true | _ => false end.

(** Consecutive entries of the request log (newest first) are at least
    [LOGIN_SPACING_MS] apart. *)
Fixpoint spaced (l : list (nat * Z)) : Prop :=
  match l with
  | (_, t2) :: rest =>
      match rest with
      | (_, t1) :: _ => (LOGIN_SPACING_MS <= t2 - t1)%Z
      | [] => True
      end /\ spaced rest
  | [] => True
  end.

(** What holds in every state the server can reach. *)
Record Inv (s : State) : Prop := {
  inv_flight : forall id, loginInFlight (vars s) = Some id ->
      exists ph, logins s !! id = Some ph /\ is_final ph = false;
  inv_pending : forall id ph, logins s !! id = Some ph -> is_final ph = false ->
      loginInFlight (vars s) = Some id;
  inv_wake : forall id wake, logins s !! id = Some (WaitTimer wake) ->
      (lastLoginAtMs (vars s) + LOGIN_SPACING_MS <= wake)%Z;
  inv_last : forall id t rest, netlog s = (id, t) :: rest ->
      lastLoginAtMs (vars s) = t;
  inv_spaced : spaced (netlog s);
  inv_callers : forall c id, callers s !! c = Some (Awaiting id) ->
      id < length (logins s);
  inv_stale : forall id ph, logins s !! id = Some ph -> is_waiting ph = true ->
      fresh_token (vars s) (clock s) = None;
}.

Definition is_call (ev : Event) : bool :=
  match ev with EvCall => true | _ => false end.

Definition is_finally (ev : Event) : bool :=
  match ev with EvFinally _ => true | _ => false end.

Fixpoint count_calls (evs : list Event) : nat :=
  match evs with
  | [] => 0
  | ev :: rest => (if is_call ev then 1 else 0) + count_calls rest
  end.

(** The calls of a schedule run from [s] are concurrent calls made without
    a usable token: each [osLogin()] is called while no fresh token is
    cached, and none is called after a [.finally] callback has run
    ([closed] tells whether one has). *)
Fixpoint concurrent (e : ProcessEnv) (s : State) (closed : bool)
    (evs : list Event) : Prop :=
  match evs with
  | [] => True
  | ev :: rest =>
      (is_call ev = true ->
       closed = false /\ fresh_token (vars s) (clock s) = None) /\
      match step e s ev with
      | Some s' => concurrent e s' (closed || is_finally ev) rest
      | None => True
      end
  end.

(** The request log of a window that started with log [L0], while the
    login numbered [n0] is in phase [ph]. *)
Definition sent_by (n0 : nat) (L0 : list (nat * Z)) (ph : Phase)
    (log : list (nat * Z)) : Prop :=
  match ph with
  | WaitTimer _ => log = L0
  | _ => exists t, log = (n0, t) :: L0
  end.

(** The states of a window of concurrent calls that started with [n0]
    logins, [c0] callers and the log [L0]: before the first call, while
    the one login is pending, and after its [.finally] has run.  The
    indices are the number of calls so far and whether the window is
    closed. *)
Inductive Win (n0 c0 : nat) (L0 : list (nat * Z)) : nat -> bool -> State -> Prop :=
  | WinIdle s :
      length (callers s) = c0 -> length (logins s) = n0 ->
      (forall id ph, logins s !! id = Some ph -> is_final ph = true) ->
      loginInFlight (vars s) = None -> netlog s = L0 ->
      Win n0 c0 L0 0 false s
  | WinOpen s k ph :
      length (callers s) = c0 + S k -> length (logins s) = S n0 ->
      (forall id ph, id < n0 -> logins s !! id = Some ph -> is_final ph = true) ->
      loginInFlight (vars s) = Some n0 ->
      logins s !! n0 = Some ph -> is_final ph = false ->
      sent_by n0 L0 ph (netlog s) ->
      (forall c x, c0 <= c -> callers s !! c = Some x -> x = Awaiting n0) ->
      Win n0 c0 L0 (S k) false s
  | WinClosed s k r t :
      length (callers s) = c0 + S k -> length (logins s) = S n0 ->
      (forall id ph, id < n0 -> logins s !! id = Some ph -> is_final ph = true) ->
      loginInFlight (vars s) = None ->
      logins s !! n0 = Some (Final r) -> netlog s = (n0, t) :: L0 ->
      (forall c x, c0 <= c -> callers s !! c = Some x ->
                   x = Awaiting n0 \/ x = Done r) ->
      Win n0 c0 L0 (S k) true s.

(** *** [await osLogin()] with no other request interleaved *)

(** The events that bring login [id] to its end, the upstream answering
    [f] if the request is still to be answered. *)
Definition completion (s : State) (id : nat)
    (f : Upstream.fetched Upstream.LoginReply) : list Event :=
  match logins s !! id with
  | Some (WaitTimer wake) =>
      [EvTick (Z.max 0 (wake - clock s)); EvTimer id; EvReply id f; EvFinally id]
  | Some WaitFetch => [EvReply id f; EvFinally id]
  | Some (Settled _) => [EvFinally id]
  | _ => []
  end.

Definition osLogin_await (e : ProcessEnv) (s : State)
    (f : Upstream.fetched Upstream.LoginReply) : option (State * Result) :=
  let s1 := osLogin_call e s in
  let c := length (callers s) in
  match callers s1 !! c with
  | Some (Done r) => Some (s1, r)
  | Some (Awaiting id) =>
      match run e s1 (completion s1 id f ++ [EvResume c]) with
      | Some s2 =>
          match callers s2 !! c with
          | Some (Done r) => Some (s2, r)
          | _ => None
          end
      | None => None
      end
  | None => None
  end.

(** *** Responses *)

Inductive ErrorText : Type :=
  | Msg (s : string)
  | Thrown (e : Error).       (* e.message of an error caught by the server *)

Inductive Body : Type :=
  | JsonError (msg : ErrorText)     (* { error: msg } *)
  | JsonHealth                      (* { ok: true } *)
  | JsonUpstream (txt : string) (osMessage : option string)
      (* the upstream JSON body, serialised again, with __osMessage when set *)
  | JsonEmptyObject                 (* {} *)
  | Text (txt : string)
  | NoBody.

Record Response := {
  status : Z;
  headers : Http.Headers;
  body : Body;
}.

Definition setCors (h : Http.Headers) : Http.Headers :=
  Http.set "Access-Control-Max-Age" "600"
    (Http.set "Access-Control-Allow-Headers" "Content-Type, Accept"
       (Http.set "Access-Control-Allow-Methods" "GET,POST,OPTIONS"
          (Http.set "Access-Control-Allow-Origin" "*" h))).

Definition sendJson (st : Z) (b : Body) : Response :=
  {| status := st;
     headers := Http.set "Content-Type" "application/json; charset=utf-8" (setCors ∅);
     body := b |}.

Definition sendText (st : Z) (txt : string) : Response :=
  {| status := st;
     headers := Http.set "Content-Type" "text/plain; charset=utf-8" (setCors ∅);
     body := Text txt |}.

(** What a handler does: it answers, or throws to the server callback. *)
Inductive Outcome : Type :=
  | Responded (r : Response)
  | Threw (e : Error).

(** Requests sent upstream other than [POST /login]. *)
Inductive Call : Type :=
  | GetSubtitles (query : list (string * string))
  | PostDownload (authorization : option string) (file_id : JS.number)
      (sub_format : string)
  | GetFile (link : string).

(** [osHeaders({ authToken })]: the Authorization header is set for a
    truthy token only. *)
Definition bearer (token : string) : option string :=
  if JS.str_truthy token then Some token else None.

(** *** [handleSubtitles] *)

Definition search_message (r : Upstream.SearchReply) : string :=
  match Upstream.sr_json r with
  | Some j =>
      let m := JS.or (Upstream.sj_message j) (Upstream.sj_error j) in
      if JS.truthy m then JS.to_string m else Upstream.sr_txt r
  | None => Upstream.sr_txt r
  end.

(** [if (osMsg && json && typeof json === "object") json.__osMessage = osMsg]:
    the header [X-OpenSubtitles-Message], which reaches the answer when the
    body parsed to an object that is not an array: the test fails for
    another value, and [JSON.stringify] drops the property of an array. *)
Definition os_message (r : Upstream.SearchReply) : option string :=
  match Upstream.sr_os_message r, Upstream.sr_json r with
  | Some m, Some j =>
      if JS.str_truthy m && Upstream.sj_plain_object j then Some m else None
  | _, _ => None
  end.

Definition handleSubtitles (req : Http.Request)
    (f : Upstream.fetched Upstream.SearchReply) : Outcome * list Call :=
  let sent := [GetSubtitles (Http.searchParams req)] in
  match f with
  | Upstream.NetFail m => (Threw (FetchFailed m), sent)
  | Upstream.Replied r =>
      if negb (JS.status_ok (Upstream.sr_status r)) then
        let msg := search_message r in
        (Responded (sendJson (Upstream.sr_status r)
           (JsonError (Msg (if JS.str_truthy msg then msg else "OpenSubtitles error")))),
         sent)
      else
        (Responded (sendJson 200
           match Upstream.sr_json r with
           | Some _ => JsonUpstream (Upstream.sr_txt r) (os_message r)
           | None => JsonEmptyObject        (* JSON.stringify(json || {}) *)
           end),
         sent)
  end.

(** *** [handleDownload] *)

(** The parsed request body: [Number(body.file_id)] and [body.sub_format],
    for a body that is not [null] (a text that does not parse stands for
    [{}]).  Reading [body.file_id] of [null] throws before the handler does
    anything else; the router, [Routes.serve], has that case. *)
Record DownloadBody := {
  file_id : JS.number;
  sub_format : JS.value;
}.

(** What the upstream answers to the requests of one [handleDownload], in
    the order the handler may send them. *)
Record Script := {
  on_login : Upstream.fetched Upstream.LoginReply;
  on_download : Upstream.fetched Upstream.DownloadReply;
  on_relogin : Upstream.fetched Upstream.LoginReply;
  on_retry : Upstream.fetched Upstream.DownloadReply;
  on_file : Upstream.fetched Upstream.FileReply;
}.

Definition download_message (r : Upstream.DownloadReply) : string :=
  match Upstream.dr_json r with
  | Some j =>
      let m := JS.or (Upstream.dj_message j) (Upstream.dj_error j) in
      if JS.truthy m then JS.to_string m else Upstream.dr_txt r
  | None => Upstream.dr_txt r
  end.

(** [out.json.link], when [out.res.ok && out.json && out.json.link] *)
Definition download_link (r : Upstream.DownloadReply) : option string :=
  if JS.status_ok (Upstream.dr_status r) then
    match Upstream.dr_json r with
    | Some j =>
        if JS.truthy (Upstream.dj_link j)
        then Some (JS.to_string (Upstream.dj_link j)) else None
    | None => None
    end
  else None.

(** Lines 198-213: answer from the last [/download] reply. *)
Definition download_finish (out : Upstream.DownloadReply)
    (file : Upstream.fetched Upstream.FileReply) : Outcome * list Call :=
  match download_link out with
  | None =>
      let msg := download_message out in
      let st := Upstream.dr_status out in
      (Responded (sendJson (if (st =? 0)%Z then 500 else st)
         (JsonError (Msg (if JS.str_truthy msg then msg
                          else "OpenSubtitles download error")))), [])
  | Some link =>
      match file with
      | Upstream.NetFail m => (Threw (FetchFailed m), [GetFile link])
      | Upstream.Replied fr =>
          if negb (JS.status_ok (Upstream.fr_status fr)) then
            let t := Upstream.fr_body fr in
            (Responded (sendJson (Upstream.fr_status fr)
               (JsonError (Msg (if JS.str_truthy t then t
                                else "Téléchargement du fichier échoué")))),
             [GetFile link])
          else (Responded (sendText 200 (Upstream.fr_body fr)), [GetFile link])
      end
  end.

Definition handleDownload (e : ProcessEnv) (s : State) (b : DownloadBody)
    (up : Script) : option (State * Outcome * list Call) :=
  let fileId := file_id b in
  let subFormat := JS.to_string (JS.or (sub_format b) (JS.VStr "srt")) in
  if negb (JS.isFinite fileId) || JS.le_zero fileId then
    Some (s, Responded (sendJson 400 (JsonError (Msg "file_id invalide"))), [])
  else
    match osLogin_await e s (on_login up) with
    | None => None
    | Some (s1, Err er) => Some (s1, Threw er, [])
    | Some (s1, Ok token) =>
        let first := PostDownload (bearer token) fileId subFormat in
        match on_download up with
        | Upstream.NetFail m => Some (s1, Threw (FetchFailed m), [first])
        | Upstream.Replied out =>
            if (Upstream.dr_status out =? 401)%Z then
              match osLogin_await e (invalidate s1) (on_relogin up) with
              | None => None
              | Some (s2, Err er) => Some (s2, Threw er, [first])
              | Some (s2, Ok token2) =>
                  let second := PostDownload (bearer token2) fileId subFormat in
                  match on_retry up with
                  | Upstream.NetFail m =>
                      Some (s2, Threw (FetchFailed m), [first; second])
                  | Upstream.Replied out2 =>
                      let '(o, cs) := download_finish out2 (on_file up) in
                      Some (s2, o, [first; second] ++ cs)
                  end
              end
            else
              let '(o, cs) := download_finish out (on_file up) in
              Some (s1, o, first :: cs)
        end
    end.

(** The server callback around a handler: an error thrown by the handler
    is answered with status 500 and its message. *)
Definition answer (o : Outcome) : Response :=
  match o with
  | Responded r => r
  | Threw er => sendJson 500 (JsonError (Thrown er))
  end.

End Server.

(** ** The Cloudflare Worker: opensubtitles-proxy.worker.js *)

Module Worker.

(** The bindings of the Worker ([env]). *)
Record Env := {
  OS_API_KEY : option string;
  OS_APP_UA : option string;
  OS_USERNAME : option string;
  OS_PASSWORD : option string;
}.

(** [!x] for a binding [x]: absent or the empty string. *)
Definition unset (o : option string) : bool :=
  match o with
  | Some s => negb (JS.str_truthy s)
  | None => true
  end.

(** Module variables: [let cachedToken = null; let tokenExpMs = 0]. *)
Record State := {
  cachedToken : JS.value;
  tokenExpMs : Z;
}.

Definition init : State := {| cachedToken := JS.VUndef; tokenExpMs := 0 |}.

(** Margin kept before the expiry, [60_000] ms, and the life given to a
    token, [12 * 60 * 60 * 1000] ms. *)
Definition EXPIRY_MARGIN_MS : Z := 60000.
Definition TOKEN_LIFE_MS : Z := 12 * 60 * 60 * 1000.

Inductive Error : Type :=
  | LoginFailed (status : Z) (message : option string)
      (* data.message, or Login failed (status) *)
  | FetchFailed (msg : string)
  | TypeError (what : string)
  | ResponseInit (e : Http.InitError).   (* thrown by new Response *)

Inductive Result : Type :=
  | Returned (token : JS.value)     (* may be null *)
  | Failed (e : Error).

Inductive Call : Type :=
  | PostLogin
  | GetSubtitles (query : list (string * string))
  | PostDownload (authorization : option string) (file_id : string)
      (sub_format : string)
  | GetFile (link : string).

(** [cachedToken && tokenExpMs - now > 60_000] *)
Definition token_valid (s : State) (now : Z) : bool :=
  JS.truthy (cachedToken s) && (EXPIRY_MARGIN_MS <? tokenExpMs s - now)%Z.

(** [ensureToken(env)], entered at time [now], the upstream answering [f]
    to the login request if one is sent. *)
Definition ensureToken (env : Env) (s : State) (now : Z)
    (f : Upstream.fetched Upstream.LoginReply) : State * Result * list Call :=
  if token_valid s now then (s, Returned (cachedToken s), [])
  else if unset (OS_USERNAME env) || unset (OS_PASSWORD env)
  then (s, Returned JS.VUndef, [])
  else
    match f with
    | Upstream.NetFail m => (s, Failed (FetchFailed m), [PostLogin])
    | Upstream.Replied r =>
        let data := Upstream.lr_json r in
        if negb (JS.status_ok (Upstream.lr_status r)) then
          let message :=
            match data with
            | Some j =>
                if JS.truthy (Upstream.lj_message j)
                then Some (JS.to_string (Upstream.lj_message j)) else None
            | None => None
            end in
          (s, Failed (LoginFailed (Upstream.lr_status r) message), [PostLogin])
        else
          let token :=
            match data with
            | Some j =>
                if JS.truthy (Upstream.lj_token j) then Upstream.lj_token j
                else JS.VUndef
            | None => JS.VUndef
            end in
          ({| cachedToken := token; tokenExpMs := (now + TOKEN_LIFE_MS)%Z |},
           Returned token, [PostLogin])
    end.

(** The states the Worker reaches under one set of bindings: from the
    initial state, by calls of [ensureToken]. *)
Inductive reachable (env : Env) : State -> Prop :=
  | reach_init : reachable env init
  | reach_call s now f :
      reachable env s -> reachable env (ensureToken env s now f).1.1.

(** [pick(obj, keys)]: the first key with a value that is not blank,
    trimmed; the empty string when there is none. *)
Fixpoint pick (ps : list (string * string)) (keys : list string) : string :=
  match keys with
  | [] => EmptyString
  | k :: rest =>
      match Http.param_get k ps with
      | Some v =>
          if JS.str_truthy (JS.trim v) then JS.trim v else pick ps rest
      | None => pick ps rest
      end
  end.

(** *** Responses *)

Inductive Body : Type :=
  | NoBody
  | JsonMessage (message : string) (status : Z)   (* { message, status } *)
  | JsonThrown (e : Error)                        (* { message: err.message, status: 500 } *)
  | JsonData (txt : string)                       (* the upstream JSON *)
  | Stream (content : string).                    (* fileRes.body *)

Record Response := {
  status : Z;
  headers : Http.Headers;
  body : Body;
}.

(** [corsHeaders()] added to a header object. *)
Definition corsHeaders (h : Http.Headers) : Http.Headers :=
  Http.set "Access-Control-Max-Age" "86400"
    (Http.set "Access-Control-Allow-Headers" "Content-Type"
       (Http.set "Access-Control-Allow-Methods" "GET,POST,OPTIONS"
          (Http.set "Access-Control-Allow-Origin" "*" h))).

Definition jsonResponse (b : Body) (st : Z) : Response :=
  {| status := st;
     headers := corsHeaders
                  (Http.set "Content-Type" "application/json; charset=utf-8" ∅);
     body := b |}.

(** [jsonResponse(obj, st)] for a status [st] read from an upstream reply:
    the body is never null, so [new Response] throws for a status it does
    not accept.  The statuses written in the code (200, 400, 404, 500,
    502) are accepted. *)
Definition jsonResponse_of (b : Body) (st : Z) : Response + Error :=
  match Http.response_init st with
  | Some er => inr (ResponseInit er)
  | None => inl (jsonResponse b st)
  end.

(** What the upstream answers to the requests of one [fetch]. *)
Record Script := {
  on_search : Upstream.fetched Upstream.SearchReply;
  on_login : Upstream.fetched Upstream.LoginReply;
  on_download : Upstream.fetched Upstream.DownloadReply;
  on_file : Upstream.fetched Upstream.FileReply;
}.

(** [if (v) apiUrl.searchParams.set(k, v)] *)
Definition set_if (k v : string) (ps : list (string * string)) : list (string * string) :=
  if JS.str_truthy v then Http.param_set k v ps else ps.

(** The [/search] branch (lines 94-124); the handler either answers or
    throws to the [catch] of [fetch]. *)
Definition search (req : Http.Request) (up : Script) : (Response + Error) * list Call :=
  let ps := Http.searchParams req in
  let query := pick ps ["query"] in
  let languages := pick ps ["languages"; "langs"] in
  let tmdb_id := pick ps ["tmdb_id"] in
  let imdb_id := pick ps ["imdb_id"] in
  let season_number := pick ps ["season_number"] in
  let episode_number := pick ps ["episode_number"] in
  let apiParams :=
    set_if "episode_number" episode_number
      (set_if "season_number" season_number
         (set_if "imdb_id" imdb_id
            (set_if "tmdb_id" tmdb_id
               (set_if "languages" languages
                  (set_if "query" query []))))) in
  let sent := [GetSubtitles apiParams] in
  match on_search up with
  | Upstream.NetFail m => (inr (FetchFailed m), sent)
  | Upstream.Replied r =>
      if negb (JS.status_ok (Upstream.sr_status r)) then
        let message :=
          match Upstream.sr_json r with
          | Some j =>
              if JS.truthy (Upstream.sj_message j)
              then JS.to_string (Upstream.sj_message j) else "Search failed"
          | None => "Search failed"
          end in
        (jsonResponse_of (JsonMessage message (Upstream.sr_status r))
           (Upstream.sr_status r), sent)
      else (inl (jsonResponse (JsonData (Upstream.sr_txt r)) 200), sent)
  end.

(** [fileName.replace(...)] is defined on strings only. *)
Definition replace_dquotes (v : JS.value) : string + Error :=
  match v with
  | JS.VStr s => inl (JS.strip_dquotes s)
  | _ => inr (TypeError "fileName.replace is not a function")
  end.

(** The value of the Content-Disposition header (line 166). *)
Definition content_disposition (stripped : string) : string :=
  "inline; filename=" +:+ String JS.dquote (stripped +:+ String JS.dquote EmptyString).

(** The [/download-file] branch (lines 126-169). *)
Definition download_file (env : Env) (s : State) (now : Z) (req : Http.Request)
    (up : Script) : State * (Response + Error) * list Call :=
  let ps := Http.searchParams req in
  let file_id := pick ps ["file_id"] in
  let format := let f := pick ps ["format"] in
                if JS.str_truthy f then f else "srt" in
  if negb (JS.str_truthy file_id)
  then (s, inl (jsonResponse (JsonMessage "Missing file_id" 400) 400), [])
  else
    match ensureToken env s now (on_login up) with
    | (s1, Failed er, cs) => (s1, inr er, cs)
    | (s1, Returned token, cs) =>
        let auth := if JS.truthy token then Some (JS.to_string token) else None in
        let cs1 := cs ++ [PostDownload auth file_id format] in
        match on_download up with
        | Upstream.NetFail m => (s1, inr (FetchFailed m), cs1)
        | Upstream.Replied dl =>
            let dlData := Upstream.dr_json dl in
            if negb (JS.status_ok (Upstream.dr_status dl)) then
              let message :=
                match dlData with
                | Some j =>
                    if JS.truthy (Upstream.dj_message j)
                    then JS.to_string (Upstream.dj_message j)
                    else "Download request failed"
                | None => "Download request failed"
                end in
              (s1, jsonResponse_of (JsonMessage message (Upstream.dr_status dl))
                     (Upstream.dr_status dl), cs1)
            else
              let link :=
                match dlData with
                | Some j => if JS.truthy (Upstream.dj_link j)
                            then Some (JS.to_string (Upstream.dj_link j)) else None
                | None => None
                end in
              let fileName :=
                match dlData with
                | Some j =>
                    if JS.truthy (Upstream.dj_file_name j) then Upstream.dj_file_name j
                    else JS.VStr ("subtitle-" +:+ file_id +:+ "." +:+ format)
                | None => JS.VStr ("subtitle-" +:+ file_id +:+ "." +:+ format)
                end in
              match link with
              | None =>
                  (s1, inl (jsonResponse (JsonMessage "No link returned by API" 502) 502),
                   cs1)
              | Some l =>
                  let cs2 := cs1 ++ [GetFile l] in
                  match on_file up with
                  | Upstream.NetFail m => (s1, inr (FetchFailed m), cs2)
                  | Upstream.Replied fr =>
                      if negb (JS.status_ok (Upstream.fr_status fr)) then
                        (s1, jsonResponse_of
                               (JsonMessage "Failed to fetch file"
                                  (Upstream.fr_status fr))
                               (Upstream.fr_status fr), cs2)
                      else
                        let contentType :=
                          if String.eqb format "vtt" then "text/vtt; charset=utf-8"
                          else "application/x-subrip; charset=utf-8" in
                        match replace_dquotes fileName with
                        | inr er => (s1, inr er, cs2)
                        | inl stripped =>
                            (s1,
                             inl {| status := 200;
                                    headers :=
                                      Http.set "Content-Disposition"
                                        (content_disposition stripped)
                                        (Http.set "Content-Type" contentType
                                           (corsHeaders ∅));
                                    body := Stream (Upstream.fr_body fr) |},
                             cs2)
                        end
                  end
              end
        end
    end.

(** [fetch(request, env, ctx)]: the routes, inside [try] ... [catch]. *)
Definition fetch (env : Env) (s : State) (now : Z) (req : Http.Request)
    (up : Script) : State * Response * list Call :=
  if String.eqb (Http.method req) "OPTIONS"
  then (s, {| status := 204; headers := corsHeaders ∅; body := NoBody |}, [])
  else
    let '(s1, r, cs) :=
      if String.eqb (Http.pathname req) "/search" && String.eqb (Http.method req) "GET"
      then let '(r, cs) := search req up in (s, r, cs)
      else if String.eqb (Http.pathname req) "/download-file"
              && String.eqb (Http.method req) "GET"
      then download_file env s now req up
      else (s, inl (jsonResponse (JsonMessage "Not found" 404) 404), []) in
    match r with
    | inl resp => (s1, resp, cs)
    | inr er => (s1, jsonResponse (JsonThrown er) 500, cs)
    end.

End Worker.

(** ** The Cloudflare Worker tronapp-subproxy *)

Module Tronapp.

(** The bindings of the Worker ([env]). *)
Record Env := {
  OS_API_KEY : option string;
  OS_USERNAME : option string;
  OS_PASSWORD : option string;
}.

Inductive Error : Type :=
  | MissingEnv (key : string)                   (* Missing env var/secret: key *)
  | LoginFailed (status : Z) (txt : string)     (* OpenSubtitles login failed (status): txt *)
  | FetchFailed (msg : string)
  | TypeError (what : string)
  | URIError
  | ResponseInit (e : Http.InitError).          (* thrown by new Response *)

(** [!val || (typeof val === "string" && val.trim() === EmptyString)] *)
Definition missing (val : option string) : bool :=
  match val with
  | Some v => negb (JS.str_truthy v) || negb (JS.str_truthy (JS.trim v))
  | None => true
  end.

(** [getEnvOrThrow(env, key)], on the binding read for [key]. *)
Definition getEnvOrThrow (key : string) (val : option string) : string + Error :=
  if missing val then inr (MissingEnv key) else inl (JS.or_empty val).

(** Module variables: [let cachedToken = null; let cachedTokenExpMs = 0]. *)
Record State := {
  cachedToken : JS.value;
  cachedTokenExpMs : Z;
}.

Definition init : State := {| cachedToken := JS.VUndef; cachedTokenExpMs := 0 |}.

Definition EXPIRY_MARGIN_MS : Z := 60000.
Definition TOKEN_LIFE_MS : Z := 10 * 60000.

Inductive Result : Type :=
  | Returned (token : JS.value)
  | Failed (e : Error).

Inductive Call : Type :=
  | PostLogin
  | GetSubtitles (query : list (string * string))
  | PostDownload (authorization : string) (file_id : string)
      (sub_format : option string)
  | GetFile (link : string).

(** [cachedToken && cachedTokenExpMs - now > 60_000] *)
Definition token_valid (s : State) (now : Z) : bool :=
  JS.truthy (cachedToken s) && (EXPIRY_MARGIN_MS <? cachedTokenExpMs s - now)%Z.

(** [login(env)], entered at time [now], the upstream answering [f] to the
    login request if one is sent.  [osFetch] reads the API key before it
    calls [fetch]. *)
Definition login (env : Env) (s : State) (now : Z)
    (f : Upstream.fetched Upstream.LoginReply) : State * Result * list Call :=
  if token_valid s now then (s, Returned (cachedToken s), [])
  else
    match getEnvOrThrow "OS_USERNAME" (OS_USERNAME env) with
    | inr er => (s, Failed er, [])
    | inl _ =>
        match getEnvOrThrow "OS_PASSWORD" (OS_PASSWORD env) with
        | inr er => (s, Failed er, [])
        | inl _ =>
            match getEnvOrThrow "OS_API_KEY" (OS_API_KEY env) with
            | inr er => (s, Failed er, [])
            | inl _ =>
                match f with
                | Upstream.NetFail m => (s, Failed (FetchFailed m), [PostLogin])
                | Upstream.Replied r =>
                    let token :=
                      match Upstream.lr_json r with
                      | Some j => Upstream.lj_token j
                      | None => JS.VUndef
                      end in
                    if negb (JS.status_ok (Upstream.lr_status r))
                       || negb (JS.truthy token)
                    then (s, Failed (LoginFailed (Upstream.lr_status r)
                                       (Upstream.lr_txt r)), [PostLogin])
                    else ({| cachedToken := token;
                             cachedTokenExpMs := (now + TOKEN_LIFE_MS)%Z |},
                          Returned token, [PostLogin])
                end
            end
        end
    end.

(** *** Responses *)

Inductive Body : Type :=
  | NoBody
  | JsonError (msg : string)                          (* { error: msg } *)
  | JsonThrown (e : Error)                            (* { error: e.message } *)
  | JsonNotFound (path : string)                      (* { error: Not Found, path } *)
  | JsonRoutes                                        (* { ok: true, routes } *)
  | JsonHealth (now : Z)                              (* { ok: true, service, now } *)
  | JsonOf (txt : string)                             (* JSON.parse(txt), or { raw: txt } *)
  | JsonDownloadFailed (status : Z) (txt : string)    (* { error, status, body } *)
  | Stream (content : string).                        (* fileResp.body *)

Record Response := {
  status : Z;
  headers : Http.Headers;
  body : Body;
}.

(** [for (const [k, v] of Object.entries(CORS_HEADERS)) headers.set(k, v)] *)
Definition CORS_HEADERS (h : Http.Headers) : Http.Headers :=
  Http.set "Access-Control-Max-Age" "86400"
    (Http.set "Access-Control-Allow-Headers"
       "Content-Type,Authorization,Api-Key,X-User-Agent,User-Agent"
       (Http.set "Access-Control-Allow-Methods" "GET,POST,OPTIONS"
          (Http.set "Access-Control-Allow-Origin" "*" h))).

Definition jsonResponse (b : Body) (st : Z) : Response :=
  {| status := st;
     headers := CORS_HEADERS
                  (Http.set "Content-Type" "application/json; charset=utf-8" ∅);
     body := b |}.

(** [jsonResponse(data, { status: st })] for a status [st] read from an
    upstream reply: the body is never null, so [new Response] throws for a
    status it does not accept.  The statuses written in the code (200,
    400, 404, 500) are accepted. *)
Definition jsonResponse_of (b : Body) (st : Z) : Response + Error :=
  match Http.response_init st with
  | Some er => inr (ResponseInit er)
  | None => inl (jsonResponse b st)
  end.

(** What the upstream answers to the requests of one handler. *)
Record Script := {
  on_search : Upstream.fetched Upstream.SearchReply;
  on_login : Upstream.fetched Upstream.LoginReply;
  on_download : Upstream.fetched Upstream.DownloadReply;
  on_file : Upstream.fetched Upstream.FileReply;
}.

(** [if (v) params.set(k, v)] *)
Definition set_if (k v : string) (ps : list (string * string)) : list (string * string) :=
  if JS.str_truthy v then Http.param_set k v ps else ps.

(** [handleSearch(req, env)] *)
Definition handleSearch (env : Env) (req : Http.Request) (up : Script)
    : (Response + Error) * list Call :=
  let ps := Http.searchParams req in
  let query := JS.trim (JS.or_default (Http.param_get "query" ps) EmptyString) in
  let languages := JS.trim (JS.or_default (Http.param_get "languages" ps) EmptyString) in
  let page := JS.trim (JS.or_default (Http.param_get "page" ps) "1") in
  if negb (JS.str_truthy query)
  then (inl (jsonResponse (JsonError "Missing query") 400), [])
  else
    let params :=
      set_if "page" page (set_if "languages" languages (Http.param_set "query" query [])) in
    match getEnvOrThrow "OS_API_KEY" (OS_API_KEY env) with
    | inr er => (inr er, [])
    | inl _ =>
        match on_search up with
        | Upstream.NetFail m => (inr (FetchFailed m), [GetSubtitles params])
        | Upstream.Replied r =>
            (jsonResponse_of (JsonOf (Upstream.sr_txt r)) (Upstream.sr_status r),
             [GetSubtitles params])
        end
    end.

(** The body of [POST /download]: [body?.file_id] and [body?.sub_format]. *)
Record DownloadBody := {
  file_id : JS.value;
  sub_format : JS.value;
}.

(** [handleDownload(req, env)] *)
Definition handleDownload (env : Env) (s : State) (now : Z)
    (b : option DownloadBody) (up : Script)
    : State * (Response + Error) * list Call :=
  let fid := match b with Some x => file_id x | None => JS.VUndef end in
  let fmt := match b with Some x => sub_format x | None => JS.VUndef end in
  if negb (JS.truthy fid)
  then (s, inl (jsonResponse (JsonError "Missing file_id") 400), [])
  else
    match login env s now (on_login up) with
    | (s1, Failed er, cs) => (s1, inr er, cs)
    | (s1, Returned token, cs) =>
        match getEnvOrThrow "OS_API_KEY" (OS_API_KEY env) with
        | inr er => (s1, inr er, cs)
        | inl _ =>
            let sent :=
              cs ++ [PostDownload (JS.to_string token) (JS.to_string fid)
                       (if JS.truthy fmt then Some (JS.to_string fmt) else None)] in
            match on_download up with
            | Upstream.NetFail m => (s1, inr (FetchFailed m), sent)
            | Upstream.Replied r =>
                (s1, jsonResponse_of (JsonOf (Upstream.dr_txt r))
                       (Upstream.dr_status r), sent)
            end
        end
    end.

(** The value of the Content-Disposition header (lines 144 and 179). *)
Definition content_disposition (filename : string) : string :=
  "attachment; filename=" +:+ String JS.dquote (filename +:+ String JS.dquote EmptyString).

(** [(dlJson.file_name || `subtitle.${subFormat}`).replace(...)]: [replace]
    is defined on strings only. *)
Definition download_filename (file_name : JS.value) (subFormat : string) : string + Error :=
  match JS.or file_name (JS.VStr ("subtitle." +:+ subFormat)) with
  | JS.VStr n => inl (JS.strip_dquotes n)
  | _ => inr (TypeError "replace is not a function")
  end.

(** The headers of a streamed reply: those of the file reply, a default
    Content-Type, the Content-Disposition and the CORS headers. *)
Definition stream_headers (from : Http.Headers) (disposition : string) : Http.Headers :=
  let h :=
    match Http.get "Content-Type" from with
    | Some ct =>
        if JS.str_truthy ct then from
        else Http.set "Content-Type" "text/plain; charset=utf-8" from
    | None => Http.set "Content-Type" "text/plain; charset=utf-8" from
    end in
  CORS_HEADERS (Http.set "Content-Disposition" disposition h).

Section DownloadFile.

(** [decodeURIComponent] of the platform; [None] when it throws. *)
Variable decodeURIComponent : string -> option string.

(** [handleDownloadFile(req, env)].  A streamed answer passes on the body
    of the file reply itself, which is null when the status allows no
    body; an error answer is built by [jsonResponse] with a status read
    from the [/download] reply. *)
Definition handleDownloadFile (env : Env) (s : State) (now : Z)
    (req : Http.Request) (up : Script) : State * (Response + Error) * list Call :=
  let ps := Http.searchParams req in
  let fileId := Http.param_get "file_id" ps in
  let legacyUrl := Http.param_get "url" ps in
  let subFormat :=
    JS.or_default (Http.param_get "sub_format" ps)
      (JS.or_default (Http.param_get "format" ps) "srt") in
  let noFileId := negb (JS.str_truthy (JS.or_empty fileId)) in
  if noFileId && JS.str_truthy (JS.or_empty legacyUrl) then
    match decodeURIComponent (JS.or_empty legacyUrl) with
    | None => (s, inr URIError, [])
    | Some target =>
        match on_file up with
        | Upstream.NetFail m => (s, inr (FetchFailed m), [GetFile target])
        | Upstream.Replied fr =>
            (s,
             inl {| status := Upstream.fr_status fr;
                    headers := stream_headers (Upstream.fr_headers fr)
                                 (content_disposition ("subtitle." +:+ subFormat));
                    body := Stream (Upstream.fr_body fr) |},
             [GetFile target])
        end
    end
  else if noFileId
  then (s, inl (jsonResponse (JsonError "Missing file_id") 400), [])
  else
    match login env s now (on_login up) with
    | (s1, Failed er, cs) => (s1, inr er, cs)
    | (s1, Returned token, cs) =>
        match getEnvOrThrow "OS_API_KEY" (OS_API_KEY env) with
        | inr er => (s1, inr er, cs)
        | inl _ =>
            let cs1 :=
              cs ++ [PostDownload (JS.to_string token) (JS.or_empty fileId)
                       (Some subFormat)] in
            match on_download up with
            | Upstream.NetFail m => (s1, inr (FetchFailed m), cs1)
            | Upstream.Replied dl =>
                let link :=
                  match Upstream.dr_json dl with
                  | Some j => Upstream.dj_link j
                  | None => JS.VUndef
                  end in
                if negb (JS.status_ok (Upstream.dr_status dl)) || negb (JS.truthy link)
                then
                  let st := Upstream.dr_status dl in
                  (s1, jsonResponse_of
                         (JsonDownloadFailed st (Upstream.dr_txt dl))
                         (if (st =? 0)%Z then 500 else st), cs1)
                else
                  let cs2 := cs1 ++ [GetFile (JS.to_string link)] in
                  match on_file up with
                  | Upstream.NetFail m => (s1, inr (FetchFailed m), cs2)
                  | Upstream.Replied fr =>
                      let file_name :=
                        match Upstream.dr_json dl with
                        | Some j => Upstream.dj_file_name j
                        | None => JS.VUndef
                        end in
                      match download_filename file_name subFormat with
                      | inr er => (s1, inr er, cs2)
                      | inl filename =>
                          (s1,
                           inl {| status := Upstream.fr_status fr;
                                  headers := stream_headers (Upstream.fr_headers fr)
                                               (content_disposition filename);
                                  body := Stream (Upstream.fr_body fr) |},
                           cs2)
                      end
                  end
            end
        end
    end.

(** [url.pathname.replace(/\/+$/, EmptyString) || "/"] *)
Fixpoint strip_trailing_slashes (p : string) : string :=
  match p with
  | EmptyString => EmptyString
  | String c r =>
      match strip_trailing_slashes r with
      | EmptyString => if Ascii.eqb c "/" then EmptyString else String c EmptyString
      | r' => String c r'
      end
  end.

(** [fetch(req, env)]: the routes, inside [try] ... [catch]. *)
Definition fetch (env : Env) (s : State) (now : Z) (req : Http.Request)
    (post : option DownloadBody) (up : Script) : State * Response * list Call :=
  let m := Http.method req in
  if String.eqb m "OPTIONS"
  then (s, {| status := 204; headers := CORS_HEADERS ∅; body := NoBody |}, [])
  else
    let path :=
      let p := strip_trailing_slashes (Http.pathname req) in
      if JS.str_truthy p then p else "/" in
    let '(s1, r, cs) :=
      if String.eqb m "GET" && String.eqb path "/"
      then (s, inl (jsonResponse JsonRoutes 200), [])
      else if String.eqb m "GET" && String.eqb path "/health"
      then (s, inl (jsonResponse (JsonHealth now) 200), [])
      else if String.eqb m "GET" && String.eqb path "/search"
      then let '(r, cs) := handleSearch env req up in (s, r, cs)
      else if String.eqb m "POST" && String.eqb path "/download"
      then handleDownload env s now post up
      else if String.eqb m "GET" && String.eqb path "/download-file"
      then handleDownloadFile env s now req up
      else (s, inl (jsonResponse (JsonNotFound path) 404), []) in
    match r with
    | inl resp => (s1, resp, cs)
    | inr er => (s1, jsonResponse (JsonThrown er) 500, cs)
    end.

End DownloadFile.

End Tronapp.

(** ** Sample inputs *)

Module Samples.

Definition token_json (tok : string) : Upstream.LoginJson :=
  {| Upstream.lj_message := JS.VUndef; Upstream.lj_error := JS.VUndef;
     Upstream.lj_token := JS.VStr tok; Upstream.lj_data_token := JS.VUndef |}.

(** [/login] answers 200 with a token. *)
Definition login_ok (tok : string) : Upstream.fetched Upstream.LoginReply :=
  Upstream.Replied
    {| Upstream.lr_status := 200; Upstream.lr_txt := "{...}";
       Upstream.lr_json := Some (token_json tok) |}.

(** [/login] answers 500 with a text body. *)
Definition login_rejected : Upstream.fetched Upstream.LoginReply :=
  Upstream.Replied
    {| Upstream.lr_status := 500; Upstream.lr_txt := "boom";
       Upstream.lr_json := None |}.

(** [/download] answers with a status and a JSON message. *)
Definition download_error (st : Z) (msg : string) : Upstream.fetched Upstream.DownloadReply :=
  Upstream.Replied
    {| Upstream.dr_status := st; Upstream.dr_txt := "{...}";
       Upstream.dr_json :=
         Some {| Upstream.dj_message := JS.VStr msg; Upstream.dj_error := JS.VUndef;
                 Upstream.dj_link := JS.VUndef; Upstream.dj_file_name := JS.VUndef |} |}.

(** [/download] answers 200 with a link and a file name. *)
Definition download_json (link : string) (name : JS.value) : Upstream.DownloadJson :=
  {| Upstream.dj_message := JS.VUndef; Upstream.dj_error := JS.VUndef;
     Upstream.dj_link := JS.VStr link; Upstream.dj_file_name := name |}.

Definition download_reply (link : string) (name : JS.value) : Upstream.DownloadReply :=
  {| Upstream.dr_status := 200; Upstream.dr_txt := "{...}";
     Upstream.dr_json := Some (download_json link name) |}.

Definition download_ok (link : string) (name : JS.value) : Upstream.fetched Upstream.DownloadReply :=
  Upstream.Replied (download_reply link name).

(** The signed link answers 200 with the subtitle. *)
Definition file_reply : Upstream.FileReply :=
  {| Upstream.fr_status := 200; Upstream.fr_headers := ∅;
     Upstream.fr_body := "1 00:00:01,000 --> 00:00:02,000 Bonjour" |}.

Definition file_ok : Upstream.fetched Upstream.FileReply :=
  Upstream.Replied file_reply.

Definition search_ok : Upstream.fetched Upstream.SearchReply :=
  Upstream.Replied
    {| Upstream.sr_status := 200; Upstream.sr_txt := "{...}";
       Upstream.sr_json := None; Upstream.sr_os_message := None |}.




Definition server_env : Server.ProcessEnv :=
  {| Server.env_OS_USERNAME := Some " bob "; Server.env_OS_PASSWORD := Some "secret" |}.

Definition server_env_no_password : Server.ProcessEnv :=
  {| Server.env_OS_USERNAME := Some "bob"; Server.env_OS_PASSWORD := None |}.

(** Three requests call [osLogin()] before the one login has answered. *)
Definition three_calls : list Server.Event :=
  [Server.EvCall; Server.EvCall; Server.EvCall;
   Server.EvReply 0 (login_ok "T"); Server.EvFinally 0;
   Server.EvResume 0; Server.EvResume 1; Server.EvResume 2].

(** A login succeeds; more than eight hours later the next one is
    rejected. *)
Definition login_then_expiry : list Server.Event :=
  [Server.EvCall; Server.EvReply 0 (login_ok "T"); Server.EvFinally 0;
   Server.EvResume 0; Server.EvTick 28800000; Server.EvCall].

(** A login is rejected, and 300 ms pass: the next call comes within the
    spacing. *)
Definition rejected_login : list Server.Event :=
  [Server.EvCall; Server.EvReply 0 login_rejected; Server.EvFinally 0;
   Server.EvResume 0; Server.EvTick 300].

Definition download_body : Server.DownloadBody :=
  {| Server.file_id := JS.Finite 12345; Server.sub_format := JS.VUndef |}.

(** The first [/download] answers 401, the login that follows succeeds and
    the retry answers 403. *)
Definition retry_fails : Server.Script :=
  {| Server.on_login := login_ok "T1";
     Server.on_download := download_error 401 "Unauthorized";
     Server.on_relogin := login_ok "T2";
     Server.on_retry := download_error 403 "Forbidden";
     Server.on_file := file_ok |}.

Definition worker_env : Worker.Env :=
  {| Worker.OS_API_KEY := Some "key"; Worker.OS_APP_UA := Some "TronAresSubProxy v1.0.0";
     Worker.OS_USERNAME := Some "bob"; Worker.OS_PASSWORD := Some "secret" |}.

Definition worker_env_no_credentials : Worker.Env :=
  {| Worker.OS_API_KEY := Some "key"; Worker.OS_APP_UA := Some "TronAresSubProxy v1.0.0";
     Worker.OS_USERNAME := None; Worker.OS_PASSWORD := None |}.

Definition worker_script (name : JS.value) : Worker.Script :=
  {| Worker.on_search := search_ok; Worker.on_login := login_ok "T1";
     Worker.on_download := download_ok "https://dl.example/f" name;
     Worker.on_file := file_ok |}.

Definition tronapp_env : Tronapp.Env :=
  {| Tronapp.OS_API_KEY := Some "key"; Tronapp.OS_USERNAME := Some "bob";
     Tronapp.OS_PASSWORD := Some "secret" |}.

Definition tronapp_env_no_password : Tronapp.Env :=
  {| Tronapp.OS_API_KEY := Some "key"; Tronapp.OS_USERNAME := Some "bob";
     Tronapp.OS_PASSWORD := Some "  " |}.

Definition tronapp_script (name : JS.value) : Tronapp.Script :=
  {| Tronapp.on_search := search_ok; Tronapp.on_login := login_ok "T1";
     Tronapp.on_download := download_ok "https://dl.example/f" name;
     Tronapp.on_file := file_ok |}.

Definition tronapp_script_401 : Tronapp.Script :=
  {| Tronapp.on_search := search_ok; Tronapp.on_login := login_ok "T1";
     Tronapp.on_download := download_error 401 "Unauthorized";
     Tronapp.on_file := file_ok |}.

(** [GET /search?query=] *)
Definition empty_search : Http.Request :=
  {| Http.method := "GET"; Http.pathname := "/search";
     Http.searchParams := [("query", EmptyString)] |}.

(** [GET /download-file?file_id=12345&sub_format=srt] *)
Definition download_file_request : Http.Request :=
  {| Http.method := "GET"; Http.pathname := "/download-file";
     Http.searchParams := [("file_id", "12345"); ("sub_format", "srt")] |}.

(** [decodeURIComponent] on text that holds no escape. *)
Definition decode_plain (u : string) : option string := Some u.

End Samples.

(** ** Routing and request construction *)

Module Routes.

(** *** The URL of an upstream request *)

(** The default of [OS_API_BASE] (server) and [DEFAULT_BASE] (tronapp). *)
Definition DEFAULT_BASE : string := "https://api.opensubtitles.com/api/v1".

(** [(process.env.OS_API_BASE || DEFAULT).replace(/\/+$/, EmptyString)] in the
    server, [(env.OS_API_BASE || DEFAULT_BASE).replace(/\/+$/, EmptyString)] in
    the tronapp Worker's [osFetch]. *)
Definition api_base (configured : option string) : string :=
  Tronapp.strip_trailing_slashes (JS.or_default configured DEFAULT_BASE).

(** [path.startsWith("/")] *)
Definition starts_with_slash (p : string) : bool :=
  match p with
  | String c _ => Ascii.eqb c "/"
  | EmptyString => false
  end.

(** The URL [osFetch] requests: in the server
    [OS_API_BASE + (path.startsWith("/") ? path : ("/" + path))], in the
    tronapp Worker the same string written as a template. *)
Definition api_url (base path : string) : string :=
  base +:+ (if starts_with_slash path then path else "/" +:+ path).

(** [s.endsWith("/")] *)
Fixpoint ends_with_slash (s : string) : bool :=
  match s with
  | EmptyString => false
  | String c EmptyString => Ascii.eqb c "/"
  | String _ r => ends_with_slash r
  end.

(** *** The router of the server *)

(** The callback of [http.createServer] (lines 216-244) on a request
    given by its method and path, with the body as [handleDownload] parses
    it: [None] for a body text that parses to [null], for which reading
    [body.file_id] throws before anything else is done.  [search] and [up]
    are what the upstream answers. *)
Definition serve (e : Server.ProcessEnv) (s : Server.State) (req : Http.Request)
    (b : option Server.DownloadBody)
    (search : Upstream.fetched Upstream.SearchReply) (up : Server.Script)
    : option (Server.State * Server.Response * list Server.Call) :=
  if String.eqb (Http.method req) "OPTIONS" then
    Some (s, {| Server.status := 204; Server.headers := Server.setCors ∅;
                Server.body := Server.NoBody |}, [])
  else if String.eqb (Http.pathname req) "/os/health" then
    Some (s, Server.sendJson 200 Server.JsonHealth, [])
  else if String.eqb (Http.pathname req) "/os/subtitles"
          && String.eqb (Http.method req) "GET" then
    let '(o, cs) := Server.handleSubtitles req search in
    Some (s, Server.answer o, cs)
  else if String.eqb (Http.pathname req) "/os/download"
          && String.eqb (Http.method req) "POST" then
    match b with
    | None =>
        Some (s, Server.sendJson 500
                   (Server.JsonError
                      (Server.Msg "Cannot read properties of null (reading 'file_id')")),
              [])
    | Some parsed =>
        match Server.handleDownload e s parsed up with
        | Some (s', o, cs) => Some (s', Server.answer o, cs)
        | None => None
        end
    end
  else Some (s, Server.sendJson 404 (Server.JsonError (Server.Msg "Not found")), []).

(** The number of [/download] requests and of file fetches among the
    requests of a handler. *)
Definition is_download (c : Server.Call) : bool :=
  match c with Server.PostDownload _ _ _ => true | _ => false end.

Definition is_file (c : Server.Call) : bool :=
  match c with Server.GetFile _ => true | _ => false end.


(** The link of a [/download] reply that the Workers follow: the reply is
    2xx and its JSON has a truthy [link]. *)
Definition followed_link (f : Upstream.fetched Upstream.DownloadReply) (l : string) : Prop :=
  exists dl j,
    f = Upstream.Replied dl /\ JS.status_ok (Upstream.dr_status dl) = true /\
    Upstream.dr_json dl = Some j /\ JS.truthy (Upstream.dj_link j) = true /\
    l = JS.to_string (Upstream.dj_link j).

(** How many elements of [l] satisfy [p]. *)
Definition count_if {A} (p : A -> bool) (l : list A) : nat :=
  length (List.filter p l).

(** The OpenSubtitles API requests among the calls of the tronapp Worker:
    everything but the fetch of a file link. *)
Definition is_api_call (c : Tronapp.Call) : bool :=
  match c with Tronapp.GetFile _ => false | _ => true end.

(** The parameter names the Worker's [/search] forwards. *)
Definition SEARCH_PARAMS : list string :=
  ["query"; "languages"; "tmdb_id"; "imdb_id"; "season_number"; "episode_number"].

End Routes.

(** ** The clock along a run of the server *)

Module History.



End History.

(** * Facts about the Node server *)

Module ServerProofs.
Import Server.

Lemma Inv_init t0 : Inv (init t0).
Proof. split; simpl; done. Qed.

Lemma fresh_token_later g now now' :
  fresh_token g now = None -> (now <= now')%Z -> fresh_token g now' = None.
Proof.
  unfold fresh_token. intros H Hle. destruct (cachedToken g) as [t|]; [|done].
  destruct (JS.str_truthy t); simpl in *; [|done].
  destruct (now - tokenSetAtMs g <? TOKEN_REUSE_MS)%Z eqn:E1; [done|].
  destruct (now' - tokenSetAtMs g <? TOKEN_REUSE_MS)%Z eqn:E2; [|done].
  apply Z.ltb_ge in E1. apply Z.ltb_lt in E2. lia.
Qed.

Lemma all_final_of_idle s :
  Inv s -> loginInFlight (vars s) = None ->
  forall id ph, logins s !! id = Some ph -> is_final ph = true.
Proof.
  intros HI Hn id ph Hl. destruct (is_final ph) eqn:E; [done|].
  pose proof (inv_pending s HI id ph Hl E). congruence.
Qed.

Lemma waiting_not_final ph : is_waiting ph = true -> is_final ph = false.
Proof. by destruct ph. Qed.

(** Appending a caller does not disturb the invariant. *)
Lemma Inv_add_caller s c :
  Inv s ->
  (forall id, c = Awaiting id -> id < length (logins s)) ->
  Inv {| vars := vars s; clock := clock s; logins := logins s;
         callers := callers s ++ [c]; netlog := netlog s |}.
Proof.
  intros HI Hc. split; simpl; try apply HI.
  intros c' id [[_ H]|[_ H]]%lookup_snoc_Some; [by eapply inv_callers|].
  by apply Hc.
Qed.

Lemma Inv_call e s : Inv s -> Inv (osLogin_call e s).
Proof.
  intros HI. unfold osLogin_call.
  destruct (credentials_missing e); [by apply Inv_add_caller|].
  destruct (fresh_token (vars s) (clock s)) eqn:Hfresh; [by apply Inv_add_caller|].
  destruct (loginInFlight (vars s)) as [id0|] eqn:Hfl.
  { apply Inv_add_caller; [done|]. intros id [= <-].
    destruct (inv_flight s HI id0 Hfl) as (ph & Hph & _).
    by eapply lookup_lt_Some. }
  pose proof (all_final_of_idle s HI Hfl) as Hfin.
  assert (Hcallers : forall ph c id,
            (callers s ++ [Awaiting (length (logins s))]) !! c = Some (Awaiting id) ->
            id < length (logins s ++ [ph])).
  { intros ph c id [[_ H]|[_ H]]%lookup_snoc_Some; rewrite length_app; simpl.
    - pose proof (inv_callers s HI c id H). lia.
    - inversion H. lia. }
  destruct (clock s - lastLoginAtMs (vars s) <? LOGIN_SPACING_MS)%Z eqn:Hd.
  - split; simpl.
    + intros id [= <-]. eexists. split; [by apply list_lookup_middle|done].
    + intros id ph [[_ H]|[-> _]]%lookup_snoc_Some Hf; [|done].
      apply Hfin in H. congruence.
    + intros id wake [[_ H]|[-> H]]%lookup_snoc_Some.
      * apply Hfin in H. done.
      * inversion H. lia.
    + apply HI.
    + apply HI.
    + apply Hcallers.
    + done.
  - unfold send_login. split; simpl.
    + intros id [= <-]. exists WaitFetch. split; [by apply list_lookup_middle|done].
    + intros id ph [[_ H]|[-> _]]%lookup_snoc_Some Hf; [|done].
      apply Hfin in H. congruence.
    + intros id wake [[_ H]|[-> H]]%lookup_snoc_Some; [|done].
      apply Hfin in H. done.
    + intros id t rest [= _ <- _]. done.
    + split; [|apply HI].
      destruct (netlog s) as [|[i t] r] eqn:Hl; [done|].
      rewrite (inv_last s HI i t r Hl) in Hd. lia.
    + apply Hcallers.
    + done.
Qed.

Lemma Inv_step e s ev s' : Inv s -> step e s ev = Some s' -> Inv s'.
Proof.
  intros HI Hs. destruct ev as [| |d|id|id f|id|c]; simpl in Hs.
  - inversion Hs; subst. by apply Inv_call.
  - inversion Hs; subst. split; simpl; try apply HI. done.
  - destruct (0 <=? d)%Z eqn:Hd; [|done]. inversion Hs; subst.
    split; simpl; try apply HI.
    intros id ph Hl Hw. eapply fresh_token_later; [by eapply inv_stale|lia].
  - destruct (logins s !! id) as [[wake| | |]|] eqn:Hl; try done.
    destruct (wake <=? clock s)%Z eqn:Hw; [|done]. inversion Hs; subst; clear Hs.
    pose proof (inv_pending s HI id _ Hl eq_refl) as Hfl.
    pose proof (lookup_lt_Some _ _ _ Hl) as Hlt.
    unfold send_login. split; simpl.
    + intros id' Hid'. rewrite Hfl in Hid'. inversion Hid'; subst.
      exists WaitFetch. split; [|done]. by apply list_lookup_insert_eq.
    + intros id' ph [(<- & _ & _)|[Hne H]]%list_lookup_insert_Some Hf; [done|].
      by eapply inv_pending.
    + intros id' wake' [(_ & H & _)|[Hne H]]%list_lookup_insert_Some; [done|].
      pose proof (inv_pending s HI id' _ H eq_refl). congruence.
    + intros id' t rest [= _ <- _]. done.
    + split; [|apply HI].
      destruct (netlog s) as [|[i t] r] eqn:Hlog; [done|].
      pose proof (inv_last s HI i t r Hlog). pose proof (inv_wake s HI id wake Hl). lia.
    + intros c id' H. rewrite length_insert. by eapply inv_callers.
    + intros _ _ _ _. by eapply (inv_stale s HI id).
  - destruct (logins s !! id) as [[wake| | |]|] eqn:Hl; try done.
    inversion Hs; subst; clear Hs.
    pose proof (inv_pending s HI id _ Hl eq_refl) as Hfl.
    pose proof (lookup_lt_Some _ _ _ Hl) as Hlt.
    assert (Hv : loginInFlight (vars (login_reply id f s)) = loginInFlight (vars s)
                 /\ lastLoginAtMs (vars (login_reply id f s)) = lastLoginAtMs (vars s)).
    { unfold login_reply. simpl. by destruct (login_result f). }
    destruct Hv as [Hv1 Hv2].
    split; rewrite ?Hv1, ?Hv2.
    + intros id' Hid'. rewrite Hfl in Hid'. inversion Hid'; subst.
      exists (Settled (login_result f)). split; [|done]. by apply list_lookup_insert_eq.
    + intros id' ph [(<- & _ & _)|[Hne H]]%list_lookup_insert_Some Hf; [done|].
      by eapply inv_pending.
    + intros id' wake' [(_ & H & _)|[Hne H]]%list_lookup_insert_Some; [done|].
      by eapply inv_wake.
    + apply HI.
    + apply HI.
    + intros c id' H. simpl. rewrite length_insert. by eapply inv_callers.
    + intros id' ph [(_ & <- & _)|[Hne H]]%list_lookup_insert_Some Hw; [done|].
      pose proof (inv_pending s HI id' _ H (waiting_not_final _ Hw)). congruence.
  - destruct (logins s !! id) as [[wake| |r|]|] eqn:Hl; try done.
    inversion Hs; subst; clear Hs.
    pose proof (inv_pending s HI id _ Hl eq_refl) as Hfl.
    pose proof (lookup_lt_Some _ _ _ Hl) as Hlt.
    split; simpl.
    + done.
    + intros id' ph [(<- & <- & _)|[Hne H]]%list_lookup_insert_Some Hf; [done|].
      pose proof (inv_pending s HI id' _ H Hf). congruence.
    + intros id' wake' [(_ & H & _)|[Hne H]]%list_lookup_insert_Some; [done|].
      by eapply inv_wake.
    + apply HI.
    + apply HI.
    + intros c id' H. rewrite length_insert. by eapply inv_callers.
    + intros id' ph [(_ & <- & _)|[Hne H]]%list_lookup_insert_Some Hw; [done|].
      by eapply (inv_stale s HI id').
  - destruct (callers s !! c) as [[id|]|] eqn:Hc; try done.
    destruct (logins s !! id) as [[wake| | |r]|] eqn:Hl; try done.
    inversion Hs; subst; clear Hs.
    split; simpl; try apply HI.
    intros c' id' [(_ & H & _)|[Hne H]]%list_lookup_insert_Some; [done|].
    by eapply inv_callers.
Qed.

Lemma Inv_run e evs : forall s s', Inv s -> run e s evs = Some s' -> Inv s'.
Proof.
  induction evs as [|ev evs IH]; intros s s' HI Hr; simpl in Hr.
  - by inversion Hr; subst.
  - destruct (step e s ev) as [s1|] eqn:Hs; [|done].
    eapply IH; [|done]. by eapply Inv_step.
Qed.

Lemma Inv_reachable e s : reachable e s -> Inv s.
Proof. intros (t0 & evs & Hr). eapply Inv_run; [apply Inv_init|done]. Qed.

Section Window.
Variable e : ProcessEnv.
Hypothesis creds : credentials_missing e = false.
Variables (n0 c0 : nat) (L0 : list (nat * Z)).

Local Abbreviation Win := (Server.Win n0 c0 L0).

Lemma pending_is_n0 s id ph :
  length (logins s) = S n0 ->
  (forall id ph, id < n0 -> logins s !! id = Some ph -> is_final ph = true) ->
  logins s !! id = Some ph -> is_final ph = false -> id = n0.
Proof.
  intros Hlen Hold Hl Hf. pose proof (lookup_lt_Some _ _ _ Hl).
  destruct (decide (id < n0)) as [Hlt|]; [|lia].
  specialize (Hold id ph Hlt Hl). congruence.
Qed.

Lemma Win_step k closed s ev s' :
  Win k closed s -> step e s ev = Some s' ->
  (is_call ev = true -> closed = false /\ fresh_token (vars s) (clock s) = None) ->
  Win (k + (if is_call ev then 1 else 0)) (closed || is_finally ev) s'.
Proof.
  intros HW Hs Hc.
  destruct HW as [s Hcl Hll Hfin Hfl Hlog
                 | s k ph Hcl Hll Hold Hfl Hph Hpf Hsent Hnew
                 | s k r t Hcl Hll Hold Hfl Hph Hlog Hnew].
  - (* idle *)
    destruct ev as [| |d|id|id f|id|c]; simpl in Hs;
      cbn [is_call is_finally orb]; rewrite ?Nat.add_0_r, ?Nat.add_1_r.
    + destruct (Hc eq_refl) as [_ Hfresh]. injection Hs as <-.
      unfold osLogin_call. rewrite creds, Hfresh, Hfl, Hll.
      destruct (_ <? _)%Z.
      * eapply WinOpen with (ph := WaitTimer _); simpl; rewrite ?length_app; simpl; try lia; try done.
        -- intros id ph Hlt [[_ H]|[-> _]]%lookup_snoc_Some; [by eapply Hfin|lia].
        -- by apply list_lookup_middle.
        -- intros c x Hge [[Hlt _]|[_ <-]]%lookup_snoc_Some; [lia|done].
      * eapply WinOpen with (ph := WaitFetch); simpl; rewrite ?length_app; simpl; try lia; try done.
        -- intros id ph Hlt [[_ H]|[-> _]]%lookup_snoc_Some; [by eapply Hfin|lia].
        -- by apply list_lookup_middle.
        -- rewrite Hlog. by eexists.
        -- intros c x Hge [[Hlt _]|[_ <-]]%lookup_snoc_Some; [lia|done].
    + injection Hs as <-. by apply WinIdle.
    + destruct (0 <=? d)%Z; [|done]. injection Hs as <-. by apply WinIdle.
    + destruct (logins s !! id) as [[wake| | |]|] eqn:Hl; try done.
      apply Hfin in Hl. done.
    + destruct (logins s !! id) as [[wake| | |]|] eqn:Hl; try done.
      apply Hfin in Hl. done.
    + destruct (logins s !! id) as [[wake| |r|]|] eqn:Hl; try done.
      apply Hfin in Hl. done.
    + destruct (callers s !! c) as [[id|]|] eqn:Hca; try done.
      destruct (logins s !! id) as [[wake| | |r]|] eqn:Hl; try done.
      injection Hs as <-. apply WinIdle; simpl; try done.
      by rewrite length_insert.
  - (* open *)
    destruct ev as [| |d|id|id f|id|c]; simpl in Hs;
      cbn [is_call is_finally orb]; rewrite ?Nat.add_0_r, ?Nat.add_1_r.
    + destruct (Hc eq_refl) as [_ Hfresh]. injection Hs as <-.
      unfold osLogin_call. rewrite creds, Hfresh, Hfl.
      eapply WinOpen with (ph := ph); simpl; rewrite ?length_app; simpl; try lia; try done.
      intros c x Hge [[_ H]|[_ <-]]%lookup_snoc_Some; [by eapply Hnew|done].
    + injection Hs as <-.
      by eapply WinOpen with (ph := ph).
    + destruct (0 <=? d)%Z; [|done]. injection Hs as <-. by eapply WinOpen with (ph := ph).
    + destruct (logins s !! id) as [[wake| | |]|] eqn:Hl; try done.
      destruct (wake <=? clock s)%Z; [|done]. injection Hs as <-.
      assert (id = n0) as -> by (by eapply pending_is_n0).
      rewrite Hl in Hph. injection Hph as <-. unfold sent_by in Hsent.
      eapply WinOpen with (ph := WaitFetch); simpl; rewrite ?length_insert; try done.
      * intros id ph Hlt H. rewrite list_lookup_insert_ne in H by lia. by eapply Hold.
      * apply list_lookup_insert_eq. lia.
      * rewrite Hsent. by eexists.
    + destruct (logins s !! id) as [[wake| | |]|] eqn:Hl; try done.
      injection Hs as <-.
      assert (id = n0) as -> by (by eapply pending_is_n0).
      rewrite Hl in Hph. injection Hph as <-. unfold sent_by in Hsent.
      eapply WinOpen with (ph := Settled (login_result f)); simpl; rewrite ?length_insert; try done.
      * intros id ph Hlt H. rewrite list_lookup_insert_ne in H by lia. by eapply Hold.
      * by destruct (login_result f).
      * apply list_lookup_insert_eq. lia.
    + destruct (logins s !! id) as [[wake| |r|]|] eqn:Hl; try done.
      injection Hs as <-.
      assert (id = n0) as -> by (by eapply pending_is_n0).
      rewrite Hl in Hph. injection Hph as <-. unfold sent_by in Hsent.
      destruct Hsent as [t Ht].
      eapply WinClosed with (r := r) (t := t); simpl; rewrite ?length_insert; try done.
      * intros id ph Hlt H. rewrite list_lookup_insert_ne in H by lia. by eapply Hold.
      * apply list_lookup_insert_eq. lia.
      * intros c x Hge H. left. by eapply Hnew.
    + destruct (callers s !! c) as [[id|]|] eqn:Hca; try done.
      destruct (logins s !! id) as [[wake| | |r]|] eqn:Hl; try done.
      injection Hs as <-.
      assert (c < c0).
      { destruct (decide (c < c0)); [done|].
        assert (Awaiting id = Awaiting n0) as [= ->] by (eapply Hnew; [|done]; lia).
        rewrite Hl in Hph. injection Hph as <-. done. }
      eapply WinOpen with (ph := ph); simpl; rewrite ?length_insert; try done.
      intros c' x Hge H'. rewrite list_lookup_insert_ne in H' by lia. by eapply Hnew.
  - (* closed *)
    assert (Hallfin : forall id ph, logins s !! id = Some ph -> is_final ph = true).
    { intros id ph Hl. destruct (is_final ph) eqn:E; [done|].
      assert (id = n0) as -> by (by eapply pending_is_n0).
      rewrite Hl in Hph. by injection Hph as ->. }
    destruct ev as [| |d|id|id f|id|c]; simpl in Hs;
      cbn [is_call is_finally orb]; rewrite ?Nat.add_0_r, ?Nat.add_1_r.
    + destruct (Hc eq_refl) as [? _]. done.
    + injection Hs as <-.
      by eapply WinClosed.
    + destruct (0 <=? d)%Z; [|done]. injection Hs as <-. by eapply WinClosed.
    + destruct (logins s !! id) as [[wake| | |]|] eqn:Hl; try done.
      apply Hallfin in Hl. done.
    + destruct (logins s !! id) as [[wake| | |]|] eqn:Hl; try done.
      apply Hallfin in Hl. done.
    + destruct (logins s !! id) as [[wake| |r'|]|] eqn:Hl; try done.
      apply Hallfin in Hl. done.
    + destruct (callers s !! c) as [[id|]|] eqn:Hca; try done.
      destruct (logins s !! id) as [[wake| | |r']|] eqn:Hl; try done.
      injection Hs as <-.
      eapply WinClosed with (r := r) (t := t); simpl; rewrite ?length_insert; try done.
      intros c' x Hge [(<- & <- & _)|[Hne H']]%list_lookup_insert_Some; [|by eapply Hnew].
      right. destruct (Hnew c (Awaiting id) Hge Hca) as [[= ->]|]; [|done].
      rewrite Hl in Hph. by injection Hph as ->.
Qed.

Lemma Win_run evs : forall k closed s s',
  Win k closed s -> run e s evs = Some s' -> concurrent e s closed evs ->
  exists closed', Win (k + count_calls evs) closed' s'.
Proof.
  induction evs as [|ev evs IH]; intros k closed s s' HW Hr Hc; simpl in Hr.
  - inversion Hr; subst. exists closed. simpl. by rewrite Nat.add_0_r.
  - destruct Hc as [Hc1 Hc2].
    destruct (step e s ev) as [s1|] eqn:Hs; [|done].
    pose proof (Win_step _ _ _ _ _ HW Hs Hc1) as HW1.
    destruct (IH _ _ _ _ HW1 Hr Hc2) as [closed' HW'].
    exists closed'.
    replace (k + count_calls (ev :: evs))
      with (k + (if is_call ev then 1 else 0) + count_calls evs); [done|].
    simpl. lia.
Qed.

End Window.

(** C1. Concurrent calls share one login.  Let the server be in a
    reachable state with no login in flight and with credentials
    configured, and let a schedule make N >= 1 calls of [osLogin()], each
    while no fresh token is cached and all before the [.finally] of the
    login they trigger has run.  If all N callers have completed, then
    exactly one [POST /login] request was sent during the schedule, and the
    N callers all hold one and the same result: the same token or the same
    error. *)
Theorem concurrent_calls_share_one_login e s0 evs s :
  credentials_missing e = false ->
  reachable e s0 ->
  loginInFlight (vars s0) = None ->
  run e s0 evs = Some s ->
  concurrent e s0 false evs ->
  0 < count_calls evs ->
  (forall c, length (callers s0) <= c < length (callers s) ->
             exists r, callers s !! c = Some (Done r)) ->
  length (callers s) = length (callers s0) + count_calls evs /\
  (exists id t, netlog s = (id, t) :: netlog s0) /\
  (exists r, forall c, length (callers s0) <= c < length (callers s) ->
             callers s !! c = Some (Done r)).
Proof.
  intros Hcreds Hreach Hidle Hrun Hconc Hn Hdone.
  pose proof (Inv_reachable _ _ Hreach) as HI.
  assert (HW0 : Win (length (logins s0)) (length (callers s0)) (netlog s0) 0 false s0).
  { apply WinIdle; try done. by apply all_final_of_idle. }
  destruct (Win_run e Hcreds _ _ _ evs _ _ _ _ HW0 Hrun Hconc) as [closed HW].
  simpl in HW.
  destruct (count_calls evs) as [|k] eqn:Hk; [lia|].
  inversion HW as [| s1 k1 ph Hcl Hll Hold Hfl Hph Hpf Hsent Hnew
                   | s1 k1 r t Hcl Hll Hold Hfl Hph Hlog Hnew]; subst.
  - exfalso. destruct (Hdone (length (callers s0))) as [r Hr]; [lia|].
    assert (Done r = Awaiting (length (logins s0))) by (eapply Hnew; [|done]; lia).
    done.
  - split; [done|]. split; [by eauto|].
    exists r. intros c Hc. destruct (Hdone c Hc) as [r' Hr'].
    destruct (Hnew c (Done r')) as [|[= ->]]; [lia|done|done|done].
Qed.

(** *** Running one awaited call to its end *)

Lemma insert_last {A} (l : list A) (x y : A) :
  <[length l := y]> (l ++ [x]) = l ++ [y].
Proof.
  rewrite insert_app_r_alt by lia. by rewrite Nat.sub_diag.
Qed.

Lemma lookup_last {A} (l : list A) (x : A) : (l ++ [x]) !! length l = Some x.
Proof. by apply list_lookup_middle. Qed.

(** A call that finds no credentials throws at once. *)
Lemma osLogin_await_no_credentials e s f :
  credentials_missing e = true ->
  osLogin_await e s f =
    Some ({| vars := vars s; clock := clock s; logins := logins s;
             callers := callers s ++ [Done (Err MissingCredentials)];
             netlog := netlog s |}, Err MissingCredentials).
Proof.
  intros Hc. unfold osLogin_await, osLogin_call. rewrite Hc. simpl.
  by rewrite lookup_last.
Qed.

(** A call that finds a fresh token returns it at once. *)
Lemma osLogin_await_fresh e s f t :
  credentials_missing e = false ->
  fresh_token (vars s) (clock s) = Some t ->
  osLogin_await e s f =
    Some ({| vars := vars s; clock := clock s; logins := logins s;
             callers := callers s ++ [Done (Ok t)];
             netlog := netlog s |}, Ok t).
Proof.
  intros Hc Hf. unfold osLogin_await, osLogin_call. rewrite Hc, Hf. simpl.
  by rewrite lookup_last.
Qed.

(** A call that finds no fresh token and no login in flight logs in: one
    request is sent, not before the spacing has elapsed, and the call
    returns what the reply gives. *)
Lemma osLogin_await_login e s f :
  credentials_missing e = false ->
  fresh_token (vars s) (clock s) = None ->
  loginInFlight (vars s) = None ->
  exists s',
    osLogin_await e s f = Some (s', login_result f) /\
    logins s' = logins s ++ [Final (login_result f)] /\
    callers s' = callers s ++ [Done (login_result f)] /\
    netlog s' = (length (logins s), clock s') :: netlog s /\
    lastLoginAtMs (vars s') = clock s' /\
    (clock s <= clock s')%Z /\
    (lastLoginAtMs (vars s) + LOGIN_SPACING_MS <= clock s')%Z /\
    loginInFlight (vars s') = None /\
    cachedToken (vars s') =
      match login_result f with Ok t => Some t | Err _ => cachedToken (vars s) end /\
    tokenSetAtMs (vars s') =
      match login_result f with Ok _ => clock s' | Err _ => tokenSetAtMs (vars s) end.
Proof.
  intros Hc Hf Hfl. unfold osLogin_await, osLogin_call. rewrite Hc, Hf, Hfl.
  destruct (clock s - lastLoginAtMs (vars s) <? LOGIN_SPACING_MS)%Z eqn:Hd.
  - cbn [callers logins]. rewrite lookup_last. unfold completion.
    cbn [logins clock]. rewrite lookup_last.
    cbn [run app step]. cbn [clock logins].
    assert (H0 : (0 <=? Z.max 0 (clock s + (LOGIN_SPACING_MS - (clock s - lastLoginAtMs (vars s))) - clock s))%Z = true)
      by (apply Z.leb_le; lia).
    rewrite H0. cbn [logins clock]. rewrite lookup_last.
    assert (H1 : (clock s + (LOGIN_SPACING_MS - (clock s - lastLoginAtMs (vars s))) <=?
                  clock s + Z.max 0 (clock s + (LOGIN_SPACING_MS - (clock s - lastLoginAtMs (vars s))) - clock s))%Z = true)
      by (apply Z.leb_le; lia).
    rewrite H1. unfold send_login. cbn [logins clock vars callers netlog].
    rewrite !insert_last, lookup_last.
    unfold login_reply. cbn [logins clock vars callers netlog].
    rewrite !insert_last, lookup_last.
    unfold login_finally. cbn [logins clock vars callers netlog].
    rewrite !insert_last, !lookup_last.
    cbn [logins clock vars callers netlog].
    rewrite !insert_last, !lookup_last.
    eexists. split; [reflexivity|].
    apply Z.ltb_lt in Hd.
    cbn [logins clock vars callers netlog].
    destruct (login_result f); cbn; repeat split; try done; lia.
  - cbn [callers logins]. unfold send_login. cbn [callers logins].
    rewrite lookup_last. unfold completion.
    cbn [logins clock]. rewrite lookup_last.
    cbn [run app step]. cbn [clock logins]. rewrite lookup_last.
    unfold login_reply. cbn [logins clock vars callers netlog].
    rewrite !insert_last, lookup_last.
    unfold login_finally. cbn [logins clock vars callers netlog].
    rewrite !insert_last, !lookup_last.
    cbn [logins clock vars callers netlog].
    rewrite !insert_last, !lookup_last.
    eexists. split; [reflexivity|].
    apply Z.ltb_ge in Hd.
    cbn [logins clock vars callers netlog].
    destruct (login_result f); cbn; repeat split; try done; lia.
Qed.

Lemma osLogin_await_Inv e s f s' r :
  osLogin_await e s f = Some (s', r) -> Inv s -> Inv s'.
Proof.
  unfold osLogin_await. intros H HI.
  pose proof (Inv_call e s HI) as HI1.
  destruct (callers (osLogin_call e s) !! length (callers s)) as [[id|r0]|]; try done.
  - destruct (run e (osLogin_call e s) _) as [s2|] eqn:Hr; [|done].
    destruct (callers s2 !! length (callers s)) as [[|r2]|]; try done.
    injection H as <- <-. by eapply Inv_run.
  - by injection H as <- <-.
Qed.

(** Every suspended caller can be brought to completion: whatever phase
    the login it awaits is in, the events of [completion] followed by the
    resumption of the caller are enabled, and the caller ends with the
    result of that login. *)
Lemma awaiting_caller_completes e s c id f :
  Inv s -> callers s !! c = Some (Awaiting id) ->
  exists s' r,
    run e s (completion s id f ++ [EvResume c]) = Some s' /\
    callers s' !! c = Some (Done r) /\
    logins s' !! id = Some (Final r).
Proof.
  intros HI Hc.
  pose proof (inv_callers s HI c id Hc) as Hlt.
  pose proof (lookup_lt_Some _ _ _ Hc) as Hclt.
  destruct (lookup_lt_is_Some_2 (logins s) id Hlt) as [ph Hph].
  unfold completion. rewrite Hph.
  destruct ph as [wake| |r|r]; cbn [run app step].
  - assert (H0 : (0 <=? Z.max 0 (wake - clock s))%Z = true) by (apply Z.leb_le; lia).
    rewrite H0. cbn [logins clock]. rewrite Hph.
    assert (H1 : (wake <=? clock s + Z.max 0 (wake - clock s))%Z = true)
      by (apply Z.leb_le; lia).
    rewrite H1. unfold send_login. cbn [logins clock vars callers netlog].
    rewrite list_lookup_insert_eq by done.
    unfold login_reply. cbn [logins clock vars callers netlog].
    rewrite list_lookup_insert_eq by (by rewrite ?length_insert).
    unfold login_finally. cbn [logins clock vars callers netlog].
    rewrite Hc.
    rewrite list_lookup_insert_eq by (by rewrite ?length_insert).
    eexists _, _. split; [reflexivity|]. cbn [logins callers].
    split; [by apply list_lookup_insert_eq|].
    apply list_lookup_insert_eq. by rewrite ?length_insert.
  - rewrite Hph. unfold login_reply. cbn [logins clock vars callers netlog].
    rewrite list_lookup_insert_eq by done.
    unfold login_finally. cbn [logins clock vars callers netlog].
    rewrite Hc.
    rewrite list_lookup_insert_eq by (by rewrite ?length_insert).
    eexists _, _. split; [reflexivity|]. cbn [logins callers].
    split; [by apply list_lookup_insert_eq|].
    apply list_lookup_insert_eq. by rewrite ?length_insert.
  - rewrite Hph. unfold login_finally. cbn [logins clock vars callers netlog].
    rewrite Hc.
    rewrite list_lookup_insert_eq by done.
    eexists _, _. split; [reflexivity|]. cbn [logins callers].
    split; [by apply list_lookup_insert_eq|].
    by apply list_lookup_insert_eq.
  - rewrite Hc, Hph.
    eexists _, _. split; [reflexivity|]. cbn [logins callers].
    split; [by apply list_lookup_insert_eq|done].
Qed.

(** X1. A caller suspended on the shared login always gets its result: in
    every reachable state, for every caller awaiting a login and whatever
    the upstream answers, the remaining steps of that login (timer,
    request, reply, [.finally]) and the resumption of the caller are
    enabled, and the caller ends with the result of the login. *)
Theorem suspended_caller_completes e s c id f :
  reachable e s -> callers s !! c = Some (Awaiting id) ->
  exists s' r,
    run e s (completion s id f ++ [EvResume c]) = Some s' /\
    callers s' !! c = Some (Done r) /\
    logins s' !! id = Some (Final r).
Proof.
  intros Hreach Hc. apply awaiting_caller_completes; [|done].
  by eapply Inv_reachable.
Qed.

Lemma suspended_caller_completes_witness :
  exists s' r,
    run Samples.server_env
      (osLogin_call Samples.server_env (osLogin_call Samples.server_env (init 0)))
      (completion
         (osLogin_call Samples.server_env (osLogin_call Samples.server_env (init 0)))
         0 Samples.login_rejected ++ [EvResume 1]) = Some s' /\
    callers s' !! 1 = Some (Done r) /\
    logins s' !! 0 = Some (Final r).
Proof.
  apply (suspended_caller_completes Samples.server_env
           (osLogin_call Samples.server_env (osLogin_call Samples.server_env (init 0)))
           1 0 Samples.login_rejected).
  - exists 0%Z, [EvCall; EvCall]. reflexivity.
  - reflexivity.
Defined.

(** The server logs in only with credentials, and caches only what a
    login gave it. *)
Lemma credentials_of_login e t0 evs : forall s,
  run e (init t0) evs = Some s ->
  (logins s <> [] -> credentials_missing e = false) /\
  (cachedToken (vars s) <> None -> logins s <> []).
Proof.
  assert (Hstep : forall s ev s',
            ((logins s <> [] -> credentials_missing e = false) /\
             (cachedToken (vars s) <> None -> logins s <> [])) ->
            step e s ev = Some s' ->
            (logins s' <> [] -> credentials_missing e = false) /\
            (cachedToken (vars s') <> None -> logins s' <> [])).
  { intros s ev s' [H1 H2] Hs.
    assert (Hins : forall id (x : Phase), <[id:=x]> (logins s) <> [] -> logins s <> []).
    { intros id x H E. apply H. by rewrite E. }
    destruct ev as [| |d|id|id f|id|c]; simpl in Hs.
    - injection Hs as <-. unfold osLogin_call.
      destruct (credentials_missing e) eqn:Hc; [by split|].
      split; [done|].
      destruct (fresh_token _ _); [done|].
      destruct (loginInFlight _); [done|].
      destruct (_ <? _)%Z; simpl; intros _. all: by destruct (logins s).
    - injection Hs as <-. split; simpl; done.
    - destruct (0 <=? d)%Z; [|done]. injection Hs as <-. by split.
    - destruct (logins s !! id) as [[wake| | |]|] eqn:Hl; try done.
      destruct (wake <=? clock s)%Z; [|done]. injection Hs as <-.
      unfold send_login; simpl.
      assert (logins s <> []) by (intros E; by rewrite E in Hl).
      split; [by eauto|]. intros _ E. destruct (logins s); [done|by destruct id].
    - destruct (logins s !! id) as [[wake| | |]|] eqn:Hl; try done.
      injection Hs as <-. unfold login_reply; simpl.
      assert (logins s <> []) by (intros E; by rewrite E in Hl).
      split; [by eauto|]. intros _ E. destruct (logins s); [done|by destruct id].
    - destruct (logins s !! id) as [[wake| |r|]|] eqn:Hl; try done.
      injection Hs as <-. unfold login_finally; simpl.
      assert (logins s <> []) by (intros E; by rewrite E in Hl).
      split; [by eauto|]. intros _ E. destruct (logins s); [done|by destruct id].
    - destruct (callers s !! c) as [[id|]|] eqn:Hc; try done.
      destruct (logins s !! id) as [[wake| | |r]|] eqn:Hl; try done.
      injection Hs as <-. by split. }
  induction evs as [|ev evs IH] using rev_ind; intros s Hr.
  - injection Hr as <-. by split.
  - assert (exists s1, run e (init t0) evs = Some s1 /\ step e s1 ev = Some s)
      as (s1 & Hr1 & Hs1).
    { clear IH. revert Hr. generalize (init t0). induction evs as [|a evs IH']; intros s0 Hr.
      - simpl in Hr. destruct (step e s0 ev) eqn:E; [|done]. injection Hr as <-. by eexists.
      - simpl in Hr. simpl. destruct (step e s0 a); [|done]. by apply IH'. }
    eapply Hstep; [|done]. by apply IH.
Qed.

Lemma credentials_of_token e s t :
  reachable e s -> cachedToken (vars s) = Some t -> credentials_missing e = false.
Proof.
  intros (t0 & evs & Hr) Ht.
  destruct (credentials_of_login e t0 evs s Hr) as [H1 H2].
  apply H1, H2. by rewrite Ht.
Qed.

(** *** Spacing of the login requests *)

Lemma spaced_lookup l : forall i id2 t2 id1 t1,
  spaced l -> l !! i = Some (id2, t2) -> l !! S i = Some (id1, t1) ->
  (LOGIN_SPACING_MS <= t2 - t1)%Z.
Proof.
  induction l as [|[a ta] l IH]; intros i id2 t2 id1 t1 Hs H2 H1; [done|].
  destruct Hs as [Hhd Htl]. destruct i as [|i]; simpl in *.
  - injection H2 as -> ->. destruct l as [|[b tb] l]; [done|].
    simpl in H1. by injection H1 as -> ->.
  - by eapply IH.
Qed.

(** C4. Two consecutive [POST /login] requests are sent at least
    [LOGIN_SPACING_MS] = 1100 ms apart, in every state the server can reach,
    whatever the number of callers: the request log is spaced; the time of
    the latest request is what [lastLoginAtMs] records, before any reply;
    a call that has to log in less than 1100 ms after the last attempt sends
    nothing and arms a timer for [lastLoginAtMs + 1100]; and the timer
    resumes the login, recording and sending the request, only once the
    clock has reached that time. *)
Theorem login_attempts_spaced e s :
  reachable e s ->
  (forall i id2 t2 id1 t1,
      netlog s !! i = Some (id2, t2) -> netlog s !! S i = Some (id1, t1) ->
      (LOGIN_SPACING_MS <= t2 - t1)%Z) /\
  (forall id t rest, netlog s = (id, t) :: rest -> lastLoginAtMs (vars s) = t) /\
  (credentials_missing e = false ->
   fresh_token (vars s) (clock s) = None ->
   loginInFlight (vars s) = None ->
   (clock s - lastLoginAtMs (vars s) < LOGIN_SPACING_MS)%Z ->
   netlog (osLogin_call e s) = netlog s /\
   lastLoginAtMs (vars (osLogin_call e s)) = lastLoginAtMs (vars s) /\
   logins (osLogin_call e s) =
     logins s ++ [WaitTimer (lastLoginAtMs (vars s) + LOGIN_SPACING_MS)]) /\
  (forall id wake s',
      logins s !! id = Some (WaitTimer wake) ->
      step e s (EvTimer id) = Some s' ->
      (lastLoginAtMs (vars s) + LOGIN_SPACING_MS <= wake <= clock s)%Z /\
      netlog s' = (id, clock s) :: netlog s /\
      lastLoginAtMs (vars s') = clock s).
Proof.
  intros Hreach. pose proof (Inv_reachable e s Hreach) as HI.
  split; [|split; [|split]].
  - intros i id2 t2 id1 t1. apply spaced_lookup, HI.
  - apply HI.
  - intros Hc Hf Hfl Hlt. unfold osLogin_call. rewrite Hc, Hf, Hfl.
    apply Z.ltb_lt in Hlt. rewrite Hlt. simpl. repeat split.
    do 3 f_equal. lia.
  - intros id wake s' Hl Hs. simpl in Hs. rewrite Hl in Hs.
    destruct (wake <=? clock s)%Z eqn:Hw; [|done]. injection Hs as <-.
    apply Z.leb_le in Hw. pose proof (inv_wake s HI id wake Hl).
    unfold send_login. simpl. repeat split; done.
Qed.

(** *** The in-flight handle *)

(** C10. Once a login has completed, whether with a token or with an
    error, its [.finally] callback is enabled and empties [loginInFlight];
    in every reachable state the handle never names a completed login, so
    it is empty when every login has completed; and from an empty handle a
    later call without a fresh token starts a new login. *)
Theorem login_handle_reset e s :
  reachable e s ->
  (forall id r, logins s !! id = Some (Settled r) ->
     exists s', step e s (EvFinally id) = Some s' /\
                loginInFlight (vars s') = None /\
                logins s' !! id = Some (Final r)) /\
  (forall id r, logins s !! id = Some (Final r) ->
     loginInFlight (vars s) <> Some id) /\
  ((forall id ph, logins s !! id = Some ph -> is_final ph = true) ->
   loginInFlight (vars s) = None) /\
  (loginInFlight (vars s) = None ->
   credentials_missing e = false ->
   fresh_token (vars s) (clock s) = None ->
   loginInFlight (vars (osLogin_call e s)) = Some (length (logins s)) /\
   exists ph, logins (osLogin_call e s) = logins s ++ [ph] /\
              is_waiting ph = true).
Proof.
  intros Hreach. pose proof (Inv_reachable e s Hreach) as HI.
  split; [|split; [|split]].
  - intros id r Hl. simpl. rewrite Hl. eexists. split; [done|].
    unfold login_finally. simpl. split; [done|].
    apply list_lookup_insert_eq. by eapply lookup_lt_Some.
  - intros id r Hl Hfl. destruct (inv_flight s HI id Hfl) as (ph & Hph & Hnf).
    rewrite Hl in Hph. injection Hph as <-. done.
  - intros Hall. destruct (loginInFlight (vars s)) as [id|] eqn:Hfl; [|done].
    destruct (inv_flight s HI id Hfl) as (ph & Hph & Hnf).
    rewrite (Hall id ph Hph) in Hnf. done.
  - intros Hfl Hc Hf. unfold osLogin_call. rewrite Hc, Hf, Hfl.
    destruct (_ <? _)%Z; simpl; (split; [done|]); by eexists.
Qed.

(** *** The reply of a login, seen by a waiting caller *)

Lemma reply_reaches_waiter e s id c f :
  Inv s -> logins s !! id = Some WaitFetch ->
  callers s !! c = Some (Awaiting id) ->
  exists s',
    run e s [EvReply id f; EvFinally id; EvResume c] = Some s' /\
    callers s' !! c = Some (Done (login_result f)) /\
    match login_result f with
    | Ok t =>
        cachedToken (vars s') = Some t /\ tokenSetAtMs (vars s') = clock s
    | Err _ =>
        cachedToken (vars s') = cachedToken (vars s) /\
        tokenSetAtMs (vars s') = tokenSetAtMs (vars s) /\
        fresh_token (vars s') (clock s') = None
    end.
Proof.
  intros HI Hl Hc.
  pose proof (lookup_lt_Some _ _ _ Hl) as Hlt.
  pose proof (lookup_lt_Some _ _ _ Hc) as Hclt.
  pose proof (inv_stale s HI id _ Hl eq_refl) as Hstale.
  cbn [run step]. rewrite Hl.
  unfold login_reply. cbn [logins clock vars callers netlog].
  rewrite list_lookup_insert_eq by done.
  unfold login_finally. cbn [logins clock vars callers netlog].
  rewrite Hc. rewrite list_lookup_insert_eq by (by rewrite ?length_insert).
  eexists. split; [reflexivity|]. cbn [logins clock vars callers netlog].
  split; [by apply list_lookup_insert_eq|].
  destruct (login_result f); cbn; [done|]. repeat split; done.
Qed.

(** *** Worker: a cached token implies configured credentials *)


(** *** Instances on sample schedules *)

Lemma concurrent_calls_share_one_login_witness :
  exists s,
    run Samples.server_env (init 5000) Samples.three_calls = Some s /\
    length (callers s) = 0 + 3 /\
    (exists id t, netlog s = (id, t) :: []) /\
    (exists r, forall c, 0 <= c < length (callers s) ->
               callers s !! c = Some (Done r)).
Proof.
  eexists. split; [vm_compute; reflexivity|].
  apply (concurrent_calls_share_one_login Samples.server_env (init 5000)
           Samples.three_calls).
  - reflexivity.
  - exists 5000%Z, []. reflexivity.
  - reflexivity.
  - vm_compute. reflexivity.
  - vm_compute. repeat split; intros; congruence.
  - vm_compute. lia.
  - intros c Hc. simpl in Hc.
    destruct c as [|[|[|c]]]; [by eexists..|lia].
Defined.

Lemma login_attempts_spaced_witness :
  exists s,
    run Samples.server_env (init 5000) Samples.rejected_login = Some s /\
    netlog (osLogin_call Samples.server_env s) = netlog s /\
    logins (osLogin_call Samples.server_env s) =
      logins s ++ [WaitTimer (lastLoginAtMs (vars s) + LOGIN_SPACING_MS)].
Proof.
  eexists. split; [vm_compute; reflexivity|].
  match goal with |- netlog (osLogin_call _ ?s) = _ /\ _ =>
    destruct (login_attempts_spaced Samples.server_env s) as (_ & _ & H & _)
  end.
  - exists 5000%Z, Samples.rejected_login. vm_compute. reflexivity.
  - destruct H as (H1 & _ & H2); [reflexivity | reflexivity | reflexivity
      | vm_compute; reflexivity |].
    split; [exact H1 | exact H2].
Defined.

Lemma login_handle_reset_witness :
  exists s,
    run Samples.server_env (init 5000)
      [EvCall; EvReply 0 Samples.login_rejected] = Some s /\
    exists s', step Samples.server_env s (EvFinally 0) = Some s' /\
               loginInFlight (vars s') = None /\
               logins s' !! 0 = Some (Final (Err (LoginRejected 500 "boom"))).
Proof.
  eexists. split; [vm_compute; reflexivity|].
  match goal with |- exists s', step _ ?s _ = _ /\ _ =>
    destruct (login_handle_reset Samples.server_env s) as (H & _)
  end.
  - exists 5000%Z, [EvCall; EvReply 0 Samples.login_rejected].
    vm_compute. reflexivity.
  - apply (H 0 (Err (LoginRejected 500 "boom"))). reflexivity.
Defined.

(** *** Reuse of the cached token *)



(** *** Missing credentials *)

(** C5, as the code has it.  With the user name or the password missing,
    the server's [osLogin()] throws at once, whatever is cached, and sends
    nothing; the tronapp Worker's [login] throws for the missing binding
    unless a valid token is still cached; the other Worker's [ensureToken]
    does not fail: without a valid cached token it returns null and sends
    nothing. *)
Theorem missing_credentials_outcome :
  (forall e s,
      credentials_missing e = true ->
      osLogin_call e s =
        {| vars := vars s; clock := clock s; logins := logins s;
           callers := callers s ++ [Done (Err MissingCredentials)];
           netlog := netlog s |}) /\
  (forall env s now f,
      Tronapp.token_valid s now = false ->
      Tronapp.missing (Tronapp.OS_USERNAME env)
        || Tronapp.missing (Tronapp.OS_PASSWORD env) = true ->
      exists key,
        Tronapp.login env s now f = (s, Tronapp.Failed (Tronapp.MissingEnv key), [])) /\
  (forall env s now f,
      Worker.token_valid s now = false ->
      Worker.unset (Worker.OS_USERNAME env)
        || Worker.unset (Worker.OS_PASSWORD env) = true ->
      Worker.ensureToken env s now f = (s, Worker.Returned JS.VUndef, [])).
Proof.
  split; [|split].
  - intros e s Hc. unfold osLogin_call. by rewrite Hc.
  - intros env s now f Hv Hm. unfold Tronapp.login, Tronapp.getEnvOrThrow.
    rewrite Hv. destruct (Tronapp.missing (Tronapp.OS_USERNAME env)); [by eexists|].
    simpl in Hm. rewrite Hm. by eexists.
  - intros env s now f Hv Hm. unfold Worker.ensureToken. by rewrite Hv, Hm.
Qed.

Lemma missing_credentials_outcome_witness :
  osLogin_call Samples.server_env_no_password (init 5000) =
    {| vars := vars (init 5000); clock := 5000; logins := [];
       callers := [] ++ [Done (Err MissingCredentials)]; netlog := [] |}.
Proof.
  destruct missing_credentials_outcome as (H & _).
  apply (H Samples.server_env_no_password (init 5000)). reflexivity.
Defined.

(** C5 as stated fails on the Worker: with no credentials configured,
    [ensureToken] returns null and no error. *)
Lemma worker_returns_null_without_credentials :
  Worker.ensureToken Samples.worker_env_no_credentials Worker.init 1000
    (Samples.login_ok "T")
  = (Worker.init, Worker.Returned JS.VUndef, []).
Proof. reflexivity. Qed.

(** *** Outcome of a login attempt *)

(** C6, as the code has it.  Server: when the reply of a pending login
    arrives, every caller awaiting that login receives its result; on
    success the token (as a string) and the time of the reply are stored;
    on failure the error reaches the caller and the attempt stores nothing:
    [cachedToken] and [tokenSetAtMs] are as before, and no fresh token is
    cached.  Worker: on a 2xx reply with a token, the token and the expiry
    [now + TOKEN_LIFE_MS] are stored and the token returned; on a reply that
    is not 2xx an error is thrown and the state is unchanged. *)
Theorem login_attempt_outcome :
  (forall e s id c f,
      reachable e s -> logins s !! id = Some WaitFetch ->
      callers s !! c = Some (Awaiting id) ->
      exists s',
        run e s [EvReply id f; EvFinally id; EvResume c] = Some s' /\
        callers s' !! c = Some (Done (login_result f)) /\
        match login_result f with
        | Ok t =>
            cachedToken (vars s') = Some t /\ tokenSetAtMs (vars s') = clock s
        | Err _ =>
            cachedToken (vars s') = cachedToken (vars s) /\
            tokenSetAtMs (vars s') = tokenSetAtMs (vars s) /\
            fresh_token (vars s') (clock s') = None
        end) /\
  (forall env s now reply,
      Worker.token_valid s now = false ->
      Worker.unset (Worker.OS_USERNAME env)
        || Worker.unset (Worker.OS_PASSWORD env) = false ->
      (forall j,
          JS.status_ok (Upstream.lr_status reply) = true ->
          Upstream.lr_json reply = Some j ->
          JS.truthy (Upstream.lj_token j) = true ->
          Worker.ensureToken env s now (Upstream.Replied reply) =
            ({| Worker.cachedToken := Upstream.lj_token j;
                Worker.tokenExpMs := (now + Worker.TOKEN_LIFE_MS)%Z |},
             Worker.Returned (Upstream.lj_token j), [Worker.PostLogin])) /\
      (JS.status_ok (Upstream.lr_status reply) = false ->
       exists msg,
         Worker.ensureToken env s now (Upstream.Replied reply) =
           (s, Worker.Failed (Worker.LoginFailed (Upstream.lr_status reply) msg),
            [Worker.PostLogin]))).
Proof.
  split.
  - intros e s id c f Hreach Hl Hc.
    apply reply_reaches_waiter; [by eapply Inv_reachable|done|done].
  - intros env s now reply Hv Hcreds. split.
    + intros j Hok Hj Htok. unfold Worker.ensureToken.
      by rewrite Hv, Hcreds, Hok, Hj, Htok.
    + intros Hok. unfold Worker.ensureToken. rewrite Hv, Hcreds, Hok. simpl.
      by eexists.
Qed.

Lemma login_attempt_outcome_witness :
  exists s',
    run Samples.server_env (osLogin_call Samples.server_env (init 5000))
      [EvReply 0 (Samples.login_ok "T"); EvFinally 0; EvResume 0] = Some s' /\
    callers s' !! 0 = Some (Done (Ok "T")) /\
    cachedToken (vars s') = Some "T" /\ tokenSetAtMs (vars s') = 5000%Z.
Proof.
  destruct login_attempt_outcome as (H & _).
  destruct (H Samples.server_env (osLogin_call Samples.server_env (init 5000))
              0 0 (Samples.login_ok "T")) as (s' & H1 & H2 & H3).
  - exists 5000%Z, [EvCall]. reflexivity.
  - reflexivity.
  - reflexivity.
  - exists s'. split; [exact H1|]. split; [exact H2|]. exact H3.
Defined.

(** C6 as stated fails when an expired token is cached: the rejected
    login leaves that token in [cachedToken]. *)
Lemma failed_login_keeps_expired_token :
  exists s s',
    run Samples.server_env (init 5000) Samples.login_then_expiry = Some s /\
    step Samples.server_env s (EvReply 1 Samples.login_rejected) = Some s' /\
    login_result Samples.login_rejected = Err (LoginRejected 500 "boom") /\
    logins s' !! 1 = Some (Settled (Err (LoginRejected 500 "boom"))) /\
    cachedToken (vars s') = Some "T".
Proof.
  eexists _, _. split; [vm_compute; reflexivity|].
  split; [vm_compute; reflexivity|]. by vm_compute.
Qed.

(** *** A download whose first request is answered 401 *)

Lemma osLogin_await_Ok_credentials e s f s1 t :
  osLogin_await e s f = Some (s1, Ok t) -> credentials_missing e = false.
Proof.
  intros H. destruct (credentials_missing e) eqn:Hc; [|done].
  rewrite osLogin_await_no_credentials in H by done. done.
Qed.

Lemma osLogin_await_idle e s f s1 r :
  loginInFlight (vars s) = None ->
  osLogin_await e s f = Some (s1, r) -> loginInFlight (vars s1) = None.
Proof.
  intros Hfl H. destruct (credentials_missing e) eqn:Hc.
  { rewrite osLogin_await_no_credentials in H by done. by injection H as <- _. }
  destruct (fresh_token (vars s) (clock s)) as [t|] eqn:Hf.
  { rewrite (osLogin_await_fresh e s f t) in H by done. by injection H as <- _. }
  destruct (osLogin_await_login e s f Hc Hf Hfl) as (s' & H1 & _ & _ & _ & _ & _ & _ & H8 & _).
  rewrite H1 in H. by injection H as <- _.
Qed.

(** A schedule without calls of [osLogin()] starts no login. *)
Lemma run_without_calls_keeps_logins e evs : forall s s',
  count_calls evs = 0 -> run e s evs = Some s' ->
  length (logins s') = length (logins s).
Proof.
  induction evs as [|ev evs IH]; intros s s' Hn Hr; simpl in Hn, Hr.
  - by injection Hr as <-.
  - destruct (step e s ev) as [s0|] eqn:Hs; [|done].
    assert (Hrest : count_calls evs = 0) by (destruct (is_call ev); [done|lia]).
    rewrite (IH _ _ Hrest Hr). clear IH Hr Hrest.
    destruct ev as [| |d|id|id f|id|c]; simpl in Hn, Hs; [lia|..].
    + by injection Hs as <-.
    + destruct (0 <=? d)%Z; [|done]. by injection Hs as <-.
    + destruct (logins s !! id) as [[wake| | |]|]; try done.
      destruct (wake <=? clock s)%Z; [|done]. injection Hs as <-.
      simpl. by rewrite length_insert.
    + destruct (logins s !! id) as [[wake| | |]|]; try done.
      injection Hs as <-. simpl. by rewrite length_insert.
    + destruct (logins s !! id) as [[wake| |r|]|]; try done.
      injection Hs as <-. simpl. by rewrite length_insert.
    + destruct (callers s !! c) as [[id|]|]; try done.
      destruct (logins s !! id) as [[wake| | |r]|]; try done.
      by injection Hs as <-.
Qed.

Lemma completion_has_no_call s id f c :
  count_calls (completion s id f ++ [EvResume c]) = 0.
Proof. unfold completion. by repeat case_match. Qed.

(** C2, as the code has it.  Server: take a download with a valid file id
    whose first [/download] request is answered 401.  The handler clears
    the cached token and calls [osLogin()] once more.  Whenever no login is
    in flight at that moment, that call starts one login, which sends
    exactly one [POST /login]; when a login started by another request is
    in flight, the call starts no login of its own: the cache being
    cleared, it awaits that login, whose remaining steps can run, and
    receives its result.  For a download that started with no login in
    flight and runs without other requests in between: if the login
    fails, its error is thrown to the server callback, no second
    [/download] is sent and the cache ends cleared; if it succeeds, the new
    token is cached and [/download] is sent exactly once more, with the new
    token; when that retry fails too, the status and message of the
    retry's reply are answered, and the cache keeps the new token.
    Tronapp: [handleDownloadFile] has no such path: a 401 from [/download]
    is answered at once as an error with that status, after the one
    [/download] request, the state being the one [login] left. *)
Theorem download_after_401 :
  (forall e s b up s1 token out,
      loginInFlight (vars s) = None ->
      JS.isFinite (file_id b) && negb (JS.le_zero (file_id b)) = true ->
      osLogin_await e s (on_login up) = Some (s1, Ok token) ->
      on_download up = Upstream.Replied out ->
      Upstream.dr_status out = 401%Z ->
      let fmt := JS.to_string (JS.or (sub_format b) (JS.VStr "srt")) in
      let first := PostDownload (bearer token) (file_id b) fmt in
      exists s2,
        osLogin_await e (invalidate s1) (on_relogin up)
          = Some (s2, login_result (on_relogin up)) /\
        netlog s2 = (length (logins s1), clock s2) :: netlog s1 /\
        match login_result (on_relogin up) with
        | Err er =>
            handleDownload e s b up = Some (s2, Threw er, [first]) /\
            cachedToken (vars s2) = None /\ tokenSetAtMs (vars s2) = 0%Z
        | Ok token2 =>
            cachedToken (vars s2) = Some token2 /\
            let second := PostDownload (bearer token2) (file_id b) fmt in
            match on_retry up with
            | Upstream.NetFail m =>
                handleDownload e s b up =
                  Some (s2, Threw (FetchFailed m), [first; second])
            | Upstream.Replied out2 =>
                handleDownload e s b up =
                  Some (s2, (download_finish out2 (on_file up)).1,
                        [first; second] ++ (download_finish out2 (on_file up)).2) /\
                (download_link out2 = None ->
                 download_finish out2 (on_file up) =
                   (Responded
                      (sendJson
                         (if (Upstream.dr_status out2 =? 0)%Z then 500
                          else Upstream.dr_status out2)
                         (JsonError
                            (Msg (if JS.str_truthy (download_message out2)
                                  then download_message out2
                                  else "OpenSubtitles download error")))), []))
            end
        end) /\
  (forall dec env s now req up s1 token cs dl,
      JS.str_truthy
        (JS.or_empty (Http.param_get "file_id" (Http.searchParams req))) = true ->
      Tronapp.login env s now (Tronapp.on_login up)
        = (s1, Tronapp.Returned token, cs) ->
      Tronapp.missing (Tronapp.OS_API_KEY env) = false ->
      Tronapp.on_download up = Upstream.Replied dl ->
      Upstream.dr_status dl = 401%Z ->
      exists fid fmt,
        Tronapp.handleDownloadFile dec env s now req up =
          (s1,
           inl (Tronapp.jsonResponse
                  (Tronapp.JsonDownloadFailed 401 (Upstream.dr_txt dl)) 401),
           cs ++ [Tronapp.PostDownload (JS.to_string token) fid fmt])) /\
  (forall e s id f,
      reachable e s ->
      loginInFlight (vars s) = Some id ->
      let s0 := osLogin_call e (invalidate s) in
      let c := length (callers s) in
      cachedToken (vars s0) = None /\
      callers s0 = callers s ++ [Awaiting id] /\
      logins s0 = logins s /\ netlog s0 = netlog s /\
      exists s' r,
        run e s0 (completion s0 id f ++ [EvResume c]) = Some s' /\
        callers s' !! c = Some (Done r) /\
        logins s' !! id = Some (Final r) /\
        length (logins s') = length (logins s)) /\
  (forall e s f,
      credentials_missing e = false ->
      loginInFlight (vars s) = None ->
      exists s',
        osLogin_await e (invalidate s) f = Some (s', login_result f) /\
        logins s' = logins s ++ [Final (login_result f)] /\
        netlog s' = (length (logins s), clock s') :: netlog s).
Proof.
  split; [|split; [|split]].
  - intros e s b up s1 token out Hfl Hvalid H1 Hdl H401 fmt first.
    pose proof (osLogin_await_Ok_credentials _ _ _ _ _ H1) as Hc.
    pose proof (osLogin_await_idle _ _ _ _ _ Hfl H1) as Hfl1.
    destruct (osLogin_await_login e (invalidate s1) (on_relogin up) Hc eq_refl Hfl1)
      as (s2 & H2 & _ & _ & Hlog & _ & _ & _ & _ & Hct & Hts).
    exists s2. split; [done|]. split; [done|].
    assert (Hv : negb (JS.isFinite (file_id b)) || JS.le_zero (file_id b) = false).
    { apply andb_prop in Hvalid as [Ha Hb]. rewrite Ha. simpl.
      by apply negb_true_iff. }
    unfold handleDownload. rewrite Hv, H1, Hdl, H401, H2. simpl in Hct, Hts.
    change (401 =? 401)%Z with true. cbv iota.
    destruct (login_result (on_relogin up)) as [token2|er].
    + split; [done|]. cbv zeta. destruct (on_retry up) as [m|out2]; [done|].
      split; [by destruct (download_finish out2 (on_file up))|].
      intros Hlink. unfold download_finish. by rewrite Hlink.
    + by repeat split.
  - intros dec env s now req up s1 token cs dl Hfid Hlogin Hkey Hdl H401.
    eexists _, _. unfold Tronapp.handleDownloadFile, Tronapp.getEnvOrThrow.
    rewrite Hfid, Hlogin, Hkey, Hdl, H401. simpl. reflexivity.
  - intros e s id f Hreach Hfl s0 c.
    pose proof (Inv_reachable e s Hreach) as HI.
    assert (Hc : credentials_missing e = false).
    { destruct Hreach as (t0 & evs & Hr).
      apply (credentials_of_login e t0 evs s Hr).
      destruct (inv_flight s HI id Hfl) as (ph & Hph & _).
      intros Hnil. by rewrite Hnil in Hph. }
    assert (Hs0 : s0 = {| vars := vars (invalidate s); clock := clock s;
                          logins := logins s;
                          callers := callers s ++ [Awaiting id];
                          netlog := netlog s |}).
    { unfold s0, osLogin_call. rewrite Hc. cbn [vars invalidate clock].
      unfold fresh_token. cbn [cachedToken loginInFlight]. by rewrite Hfl. }
    rewrite Hs0. cbn [vars callers logins netlog].
    split; [done|]. split; [done|]. split; [done|]. split; [done|].
    rewrite <- Hs0.
    assert (HI0 : Inv s0).
    { apply Inv_call. by apply (Inv_step e s EvInvalidate). }
    assert (Hcaller : callers s0 !! c = Some (Awaiting id)).
    { rewrite Hs0. cbn [callers]. apply lookup_last. }
    destruct (awaiting_caller_completes e s0 c id f HI0 Hcaller)
      as (s' & r & Hrun & Hdone & Hfinal).
    exists s', r. split; [done|]. split; [done|]. split; [done|].
    rewrite (run_without_calls_keeps_logins e _ s0 s'
               (completion_has_no_call s0 id f c) Hrun).
    by rewrite Hs0.
  - intros e s f Hc Hfl.
    destruct (osLogin_await_login e (invalidate s) f Hc eq_refl Hfl)
      as (s' & H1 & H2 & _ & H4 & _).
    by exists s'.
Qed.

Lemma download_after_401_witness :
  exists s1 s2,
    osLogin_await Samples.server_env (init 5000) (Samples.login_ok "T1")
      = Some (s1, Ok "T1") /\
    osLogin_await Samples.server_env (invalidate s1) (Samples.login_ok "T2")
      = Some (s2, Ok "T2") /\
    netlog s2 = (length (logins s1), clock s2) :: netlog s1 /\
    cachedToken (vars s2) = Some "T2" /\
    exists s' r,
      run Samples.server_env
        (osLogin_call Samples.server_env
           (invalidate (osLogin_call Samples.server_env (init 5000))))
        (completion
           (osLogin_call Samples.server_env
              (invalidate (osLogin_call Samples.server_env (init 5000))))
           0 (Samples.login_ok "T2") ++ [EvResume 1]) = Some s' /\
      callers s' !! 1 = Some (Done r) /\
      logins s' !! 0 = Some (Final r) /\
      length (logins s') = 1.
Proof.
  eexists.
  match goal with |- exists s2, ?A = Some (?s1, _) /\ _ =>
    assert (H1 : A = Some (s1, Ok "T1")) by (vm_compute; reflexivity)
  end.
  destruct download_after_401 as (H & _ & Hjoin & _).
  destruct (H Samples.server_env (init 5000) Samples.download_body
              Samples.retry_fails _ "T1" _ eq_refl eq_refl H1 eq_refl eq_refl)
    as (s2 & H2 & H3 & H4 & _).
  exists s2. split; [exact H1|]. split; [exact H2|]. split; [exact H3|].
  split; [exact H4|].
  destruct (Hjoin Samples.server_env (osLogin_call Samples.server_env (init 5000))
              0 (Samples.login_ok "T2"))
    as (_ & _ & _ & _ & s' & r & H5 & H6 & H7 & H8).
  - exists 5000%Z, [EvCall]. reflexivity.
  - reflexivity.
  - exists s', r. split; [exact H5|]. split; [exact H6|]. split; [exact H7|exact H8].
Defined.

(** C2 as stated fails on the server when the retry fails after a
    successful login: the answer carries the retry's error (403), not the
    first one (401), and the cache holds the new token. *)
Lemma failed_retry_keeps_new_token :
  exists s' r,
    handleDownload Samples.server_env (init 5000) Samples.download_body
      Samples.retry_fails
    = Some (s', Responded r,
            [PostDownload (Some "T1") (JS.Finite 12345) "srt";
             PostDownload (Some "T2") (JS.Finite 12345) "srt"]) /\
    status r = 403%Z /\ body r = JsonError (Msg "Forbidden") /\
    cachedToken (vars s') = Some "T2".
Proof.
  eexists _, _. split; [vm_compute; reflexivity|]. by vm_compute.
Qed.

End ServerProofs.

(** * Facts about the request handlers *)

Module HandlerProofs.

(** *** Headers *)

Lemma get_set_eq name v (h : Http.Headers) :
  Http.get name (Http.set name v h) = Some v.
Proof. unfold Http.get, Http.set. apply lookup_insert_eq. Qed.

Lemma get_set_ne n n' v (h : Http.Headers) :
  Http.lower n <> Http.lower n' ->
  Http.get n (Http.set n' v h) = Http.get n h.
Proof. intros H. unfold Http.get, Http.set. by apply lookup_insert_ne. Qed.

Ltac header_lookup :=
  repeat (rewrite get_set_ne by (vm_compute; discriminate));
  rewrite get_set_eq.

Lemma tronapp_cors h : Http.has_cors (Tronapp.CORS_HEADERS h).
Proof.
  unfold Http.has_cors, Tronapp.CORS_HEADERS.
  repeat split; header_lookup; done.
Qed.

Lemma worker_cors h : Http.has_cors (Worker.corsHeaders h).
Proof.
  unfold Http.has_cors, Worker.corsHeaders.
  repeat split; header_lookup; done.
Qed.

Lemma has_cors_set n v h :
  Http.lower n <> "access-control-allow-origin" ->
  Http.lower n <> "access-control-allow-methods" ->
  Http.lower n <> "access-control-allow-headers" ->
  Http.lower n <> "access-control-max-age" ->
  Http.has_cors h -> Http.has_cors (Http.set n v h).
Proof.
  intros H1 H2 H3 H4 (A & B & C & D). unfold Http.has_cors.
  rewrite !get_set_ne by (intros E; symmetry in E; revert E; vm_compute; done).
  done.
Qed.

Lemma tronapp_stream_headers from d :
  Http.get "Content-Disposition" (Tronapp.stream_headers from d) = Some d /\
  Http.has_cors (Tronapp.stream_headers from d).
Proof.
  unfold Tronapp.stream_headers. split; [|apply tronapp_cors].
  unfold Tronapp.CORS_HEADERS. by header_lookup.
Qed.

(** *** Double quotes *)


(** *** Search with an empty query *)

(** C7, as the code has it.  The tronapp Worker answers a search whose
    query is absent, empty or blank with status 400 and the error
    [Missing query], and sends nothing upstream.  The other Worker and the
    Node server have no such check: whatever the query, they send one
    [GET /subtitles] upstream. *)
Theorem empty_query_search :
  (forall env req up,
      JS.trim (JS.or_default (Http.param_get "query" (Http.searchParams req))
                 EmptyString) = EmptyString ->
      Tronapp.handleSearch env req up =
        (inl (Tronapp.jsonResponse (Tronapp.JsonError "Missing query") 400), [])) /\
  (forall req up, exists q, (Worker.search req up).2 = [Worker.GetSubtitles q]) /\
  (forall req f,
      (Server.handleSubtitles req f).2 =
        [Server.GetSubtitles (Http.searchParams req)]).
Proof.
  split; [|split].
  - intros env req up Hq. unfold Tronapp.handleSearch. by rewrite Hq.
  - intros req up. unfold Worker.search. eexists.
    destruct (Worker.on_search up) as [m|r]; [done|].
    by destruct (negb _).
  - intros req f. unfold Server.handleSubtitles.
    destruct f as [m|r]; [done|]. by destruct (negb _).
Qed.

Lemma empty_query_search_witness :
  Tronapp.handleSearch Samples.tronapp_env Samples.empty_search
    (Samples.tronapp_script JS.VUndef) =
  (inl (Tronapp.jsonResponse (Tronapp.JsonError "Missing query") 400), []).
Proof.
  destruct empty_query_search as (H & _). apply H. reflexivity.
Defined.

(** C7 as stated fails on the Worker: [GET /search?query=] is forwarded
    upstream, and the upstream's 200 is answered. *)
Lemma worker_forwards_empty_query :
  exists resp,
    Worker.fetch Samples.worker_env Worker.init 1000 Samples.empty_search
      (Samples.worker_script JS.VUndef)
    = (Worker.init, resp, [Worker.GetSubtitles []]) /\
    Worker.status resp = 200%Z.
Proof. eexists. split; [vm_compute; reflexivity|reflexivity]. Qed.

(** *** The streamed subtitle file *)







End HandlerProofs.

(** * More facts about the Node server *)

Module MoreServerProofs.
Import Server.

Lemma run_snoc e evs : forall s ev s',
  run e s (evs ++ [ev]) = Some s' <->
  exists s1, run e s evs = Some s1 /\ step e s1 ev = Some s'.
Proof.
  induction evs as [|a evs IH]; intros s ev s'; simpl.
  - destruct (step e s ev) as [s1|] eqn:E.
    + split.
      * intros [= <-]. by exists s.
      * intros (s0 & [= <-] & H). by rewrite E in H.
    + split; [done|]. intros (s0 & [= <-] & H). by rewrite E in H.
  - destruct (step e s a) as [s1|]; [apply IH|].
    split; [done|]. by intros (s0 & H & _).
Qed.

(** Induction over the states reachable from one initial state. *)
Lemma run_invariant e t0 (P : State -> Prop) :
  P (init t0) ->
  (forall s ev s', Inv s -> P s -> step e s ev = Some s' -> P s') ->
  forall evs s, run e (init t0) evs = Some s -> P s.
Proof.
  intros H0 Hstep evs. induction evs as [|ev evs IH] using rev_ind; intros s Hr.
  - by injection Hr as <-.
  - apply run_snoc in Hr as (s1 & Hr1 & Hs).
    eapply Hstep; [|by apply IH|done].
    eapply ServerProofs.Inv_run; [apply ServerProofs.Inv_init|done].
Qed.

(** *** One request per login *)

(** X2. No login sends its request twice.  In every reachable state each
    login appears at most once in the log of [POST /login] requests; the
    logins that have a request in the log are those past their timer, and a
    login still waiting for its timer has sent nothing. *)
Theorem one_request_per_login e s :
  reachable e s ->
  NoDup (netlog s).*1 /\
  (forall id, id ∈ (netlog s).*1 <->
     exists ph, logins s !! id = Some ph /\
                match ph with WaitTimer _ => False | _ => True end).
Proof.
  intros (t0 & evs & Hr). revert evs s Hr. apply run_invariant.
  { split; [constructor|]. intros id. simpl. split.
    - by intros ?%elem_of_nil.
    - by intros (ph & ? & _). }
  intros s ev s' HI [Hnd Hiff] Hs.
  assert (Hlt : forall id, id ∈ (netlog s).*1 -> id < length (logins s)).
  { intros id (ph & Hph & _)%Hiff. by eapply lookup_lt_Some. }
  destruct ev as [| |d|id|id f|id|c]; simpl in Hs.
  - injection Hs as <-. unfold osLogin_call.
    destruct (credentials_missing e); [done|].
    destruct (fresh_token _ _); [done|].
    destruct (loginInFlight (vars s)) eqn:Hfl; [done|].
    pose proof (ServerProofs.all_final_of_idle s HI Hfl) as Hfin.
    destruct (_ <? _)%Z; simpl.
    + split; [done|]. intros id. rewrite Hiff. split.
      * intros (ph & Hph & Hp). exists ph. split; [|done].
        rewrite lookup_app_l; [done|by eapply lookup_lt_Some].
      * intros (ph & [[_ Hph]|[-> <-]]%lookup_snoc_Some & Hp); [by eexists|done].
    + split.
      * constructor; [|done]. intros H%Hlt. lia.
      * intros id. rewrite elem_of_cons, Hiff. split.
        -- intros [->|(ph & Hph & Hp)].
           ++ exists WaitFetch. by rewrite ServerProofs.lookup_last.
           ++ exists ph. split; [|done].
              rewrite lookup_app_l; [done|by eapply lookup_lt_Some].
        -- intros (ph & [[_ Hph]|[-> <-]]%lookup_snoc_Some & Hp);
             [right; by eexists|by left].
  - by injection Hs as <-.
  - destruct (0 <=? d)%Z; [|done]. by injection Hs as <-.
  - destruct (logins s !! id) as [[wake| | |]|] eqn:Hl; try done.
    destruct (wake <=? clock s)%Z; [|done]. injection Hs as <-.
    unfold send_login. simpl.
    pose proof (lookup_lt_Some _ _ _ Hl) as Hidlt.
    assert (Hnot : id ∉ (netlog s).*1).
    { intros (ph & Hph & Hp)%Hiff. rewrite Hl in Hph. by injection Hph as <-. }
    split; [by constructor|].
    intros id'. rewrite elem_of_cons, Hiff. split.
    + intros [->|(ph & Hph & Hp)].
      * exists WaitFetch. by rewrite list_lookup_insert_eq.
      * exists ph. split; [|done]. rewrite list_lookup_insert_ne; [done|].
        intros <-. rewrite Hl in Hph. by injection Hph as <-.
    + intros (ph & [(<- & _ & _)|[Hne Hph]]%list_lookup_insert_Some & Hp);
        [by left|right; by eexists].
  - destruct (logins s !! id) as [[wake| | |]|] eqn:Hl; try done.
    injection Hs as <-. unfold login_reply. simpl.
    split; [done|]. intros id'. rewrite Hiff. split.
    + intros (ph & Hph & Hp). destruct (decide (id = id')) as [<-|Hne].
      * exists (Settled (login_result f)). split; [|done].
        apply list_lookup_insert_eq. by eapply lookup_lt_Some.
      * exists ph. by rewrite list_lookup_insert_ne.
    + intros (ph & [(<- & _ & _)|[Hne Hph]]%list_lookup_insert_Some & Hp);
        by eexists.
  - destruct (logins s !! id) as [[wake| |r|]|] eqn:Hl; try done.
    injection Hs as <-. unfold login_finally. simpl.
    split; [done|]. intros id'. rewrite Hiff. split.
    + intros (ph & Hph & Hp). destruct (decide (id = id')) as [<-|Hne].
      * exists (Final r). split; [|done].
        apply list_lookup_insert_eq. by eapply lookup_lt_Some.
      * exists ph. by rewrite list_lookup_insert_ne.
    + intros (ph & [(<- & _ & _)|[Hne Hph]]%list_lookup_insert_Some & Hp);
        by eexists.
  - destruct (callers s !! c) as [[id|]|] eqn:Hc; try done.
    destruct (logins s !! id) as [[wake| | |r]|] eqn:Hl; try done.
    by injection Hs as <-.
Qed.

Lemma one_request_per_login_witness :
  exists s,
    run Samples.server_env (init 5000) Samples.three_calls = Some s /\
    NoDup (netlog s).*1.
Proof.
  eexists. split; [vm_compute; reflexivity|].
  eapply (one_request_per_login Samples.server_env).
  exists 5000%Z, Samples.three_calls. vm_compute. reflexivity.
Defined.

(** *** Where the cached token comes from *)

(** X3. The server caches only tokens the upstream issued: in every
    reachable state, a token held in [cachedToken] is the result of one of
    the logins performed so far. *)
Theorem cached_token_was_issued e s t :
  reachable e s -> cachedToken (vars s) = Some t ->
  exists id, logins s !! id = Some (Settled (Ok t)) \/
             logins s !! id = Some (Final (Ok t)).
Proof.
  intros (t0 & evs & Hr). revert t. revert evs s Hr.
  apply (run_invariant e t0
           (fun s => forall t, cachedToken (vars s) = Some t ->
              exists id, logins s !! id = Some (Settled (Ok t)) \/
                         logins s !! id = Some (Final (Ok t)))); [done|].
  intros s ev s' HI IH Hs t.
  assert (Happ : forall ph t, cachedToken (vars s) = Some t ->
            exists id, (logins s ++ [ph]) !! id = Some (Settled (Ok t)) \/
                       (logins s ++ [ph]) !! id = Some (Final (Ok t))).
  { intros ph t' (id & H)%IH. exists id.
    destruct H as [H|H]; [left|right];
      (rewrite lookup_app_l; [done|by eapply lookup_lt_Some]). }
  assert (Hins : forall id0 ph0 ph t,
            logins s !! id0 = Some ph0 ->
            (forall r, ph0 <> Settled (Ok r)) -> (forall r, ph0 <> Final r) ->
            cachedToken (vars s) = Some t ->
            exists id, <[id0:=ph]> (logins s) !! id = Some (Settled (Ok t)) \/
                       <[id0:=ph]> (logins s) !! id = Some (Final (Ok t))).
  { intros id0 ph0 ph t' Hl H1 H2 (id & H)%IH. exists id.
    rewrite list_lookup_insert_ne; [done|].
    intros <-. rewrite Hl in H. destruct H as [[= ->]|[= ->]]; [by eapply H1|by eapply H2]. }
  destruct ev as [| |d|id|id f|id|c]; simpl in Hs.
  - injection Hs as <-. unfold osLogin_call.
    destruct (credentials_missing e); [by apply IH|].
    destruct (fresh_token _ _); [by apply IH|].
    destruct (loginInFlight (vars s)); [by apply IH|].
    destruct (_ <? _)%Z; simpl; apply Happ.
  - injection Hs as <-. done.
  - destruct (0 <=? d)%Z; [|done]. injection Hs as <-. by apply IH.
  - destruct (logins s !! id) as [[wake| | |]|] eqn:Hl; try done.
    destruct (wake <=? clock s)%Z; [|done]. injection Hs as <-.
    unfold send_login. simpl. by eapply Hins.
  - destruct (logins s !! id) as [[wake| | |]|] eqn:Hl; try done.
    injection Hs as <-. unfold login_reply. simpl.
    destruct (login_result f) as [tok|er] eqn:Hres; simpl.
    + intros [= <-]. exists id. left.
      apply list_lookup_insert_eq. by eapply lookup_lt_Some.
    + by eapply Hins.
  - destruct (logins s !! id) as [[wake| |r|]|] eqn:Hl; try done.
    injection Hs as <-. unfold login_finally. simpl.
    intros (id' & H)%IH. destruct (decide (id = id')) as [<-|Hne].
    + exists id. right. rewrite Hl in H. destruct H as [[= ->]|[=]].
      apply list_lookup_insert_eq. by eapply lookup_lt_Some.
    + exists id'. by rewrite list_lookup_insert_ne.
  - destruct (callers s !! c) as [[id|]|] eqn:Hc; try done.
    destruct (logins s !! id) as [[wake| | |r]|] eqn:Hl; try done.
    injection Hs as <-. by apply IH.
Qed.

Lemma cached_token_was_issued_witness :
  exists s id,
    run Samples.server_env (init 5000) Samples.three_calls = Some s /\
    (logins s !! id = Some (Settled (Ok "T")) \/
     logins s !! id = Some (Final (Ok "T"))).
Proof.
  eexists.
  match goal with |- exists id, ?A = Some ?s /\ _ =>
    assert (H1 : A = Some s) by (vm_compute; reflexivity)
  end.
  destruct (cached_token_was_issued Samples.server_env _ "T"
              (ex_intro _ 5000%Z (ex_intro _ Samples.three_calls H1)) eq_refl)
    as (id & H).
  exists id. split; [exact H1|exact H].
Defined.

(** *** Time stamps *)




End MoreServerProofs.

(** * More facts about the server's handlers *)

Module ServerHandlerProofs.
Import Server.

(** From a state with no login in flight, an awaited [osLogin()] always
    completes, leaves no login in flight, and sends at most one request. *)
Lemma osLogin_await_total e s f :
  loginInFlight (vars s) = None ->
  exists s1 r,
    osLogin_await e s f = Some (s1, r) /\
    loginInFlight (vars s1) = None /\
    (netlog s1 = netlog s \/ exists x, netlog s1 = x :: netlog s).
Proof.
  intros Hfl. destruct (credentials_missing e) eqn:Hc.
  { rewrite ServerProofs.osLogin_await_no_credentials by done.
    eexists _, _. split; [done|]. split; [done|]. by left. }
  destruct (fresh_token (vars s) (clock s)) as [t|] eqn:Hf.
  { rewrite (ServerProofs.osLogin_await_fresh e s f t) by done.
    eexists _, _. split; [done|]. split; [done|]. by left. }
  destruct (ServerProofs.osLogin_await_login e s f Hc Hf Hfl)
    as (s' & H1 & _ & _ & H4 & _ & _ & _ & H8 & _).
  exists s', (login_result f). split; [done|]. split; [done|]. right. by eexists.
Qed.

Lemma download_finish_calls out file :
  Routes.count_if Routes.is_download (download_finish out file).2 = 0 /\
  Routes.count_if Routes.is_file (download_finish out file).2 <= 1 /\
  (forall link, GetFile link ∈ (download_finish out file).2 ->
                download_link out = Some link).
Proof.
  unfold download_finish. destruct (download_link out) as [l|].
  - destruct file as [m|fr]; [|destruct (negb _)]; simpl.
    all: split; [done|]; split; [unfold Routes.count_if; simpl; lia|].
    all: by intros link [= ->]%list_elem_of_singleton.
  - simpl. split; [done|]. split; [unfold Routes.count_if; simpl; lia|].
    by intros link ?%elem_of_nil.
Qed.

(** X5. One download stays within two attempts.  Started with no login in
    flight, [handleDownload] always produces an outcome and leaves no login
    in flight; it sends at most two [/download] requests, at most two
    [POST /login] and at most one file fetch; an invalid [file_id] sends
    nothing and changes nothing; and a file is fetched only from the link
    of a [/download] reply that was 2xx. *)
Theorem handleDownload_bounded e s b up :
  loginInFlight (vars s) = None ->
  exists s' o cs,
    handleDownload e s b up = Some (s', o, cs) /\
    loginInFlight (vars s') = None /\
    Routes.count_if Routes.is_download cs <= 2 /\
    Routes.count_if Routes.is_file cs <= 1 /\
    (exists sent, netlog s' = sent ++ netlog s /\ length sent <= 2) /\
    (negb (JS.isFinite (file_id b)) || JS.le_zero (file_id b) = true ->
     s' = s /\ cs = [] /\
     o = Responded (sendJson 400 (JsonError (Msg "file_id invalide")))) /\
    (forall link, GetFile link ∈ cs ->
       exists out, (on_download up = Upstream.Replied out \/
                    on_retry up = Upstream.Replied out) /\
                   download_link out = Some link).
Proof.
  intros Hfl. unfold handleDownload.
  destruct (negb (JS.isFinite (file_id b)) || JS.le_zero (file_id b)) eqn:Hv.
  { eexists _, _, _. split; [done|]. split; [done|].
    split; [unfold Routes.count_if; simpl; lia|].
    split; [unfold Routes.count_if; simpl; lia|].
    split; [exists []; split; [done|simpl; lia]|]. split; [done|]. by intros link ?%elem_of_nil. }
  destruct (osLogin_await_total e s (on_login up) Hfl) as (s1 & r1 & H1 & Hfl1 & Hlog1).
  rewrite H1.
  assert (Hsent1 : exists sent, netlog s1 = sent ++ netlog s /\ length sent <= 1).
  { destruct Hlog1 as [->|[x ->]]; [exists []|exists [x]]; simpl; (split; [done|lia]). }
  destruct Hsent1 as (sent1 & Hs1 & Hl1).
  destruct r1 as [token|er].
  2:{ eexists _, _, _. split; [done|]. split; [done|].
      split; [unfold Routes.count_if; simpl; lia|].
      split; [unfold Routes.count_if; simpl; lia|].
      split; [exists sent1; split; [done|lia]|]. split; [done|].
      by intros link ?%elem_of_nil. }
  destruct (on_download up) as [m|out] eqn:Hdl.
  { eexists _, _, _. split; [done|]. split; [done|].
    split; [unfold Routes.count_if; simpl; lia|].
    split; [unfold Routes.count_if; simpl; lia|].
    split; [exists sent1; split; [done|lia]|]. split; [done|].
    intros link [=]%list_elem_of_singleton. }
  destruct (Upstream.dr_status out =? 401)%Z eqn:H401.
  - assert (Hfl1' : loginInFlight (vars (invalidate s1)) = None) by done.
    destruct (osLogin_await_total e (invalidate s1) (on_relogin up) Hfl1')
      as (s2 & r2 & H2 & Hfl2 & Hlog2).
    rewrite H2.
    assert (Hsent2 : exists sent, netlog s2 = sent ++ netlog s /\ length sent <= 2).
    { simpl in Hlog2. destruct Hlog2 as [->|[x ->]]; rewrite Hs1.
      - exists sent1. split; [done|lia].
      - exists (x :: sent1). simpl. split; [done|lia]. }
    destruct r2 as [token2|er].
    2:{ eexists _, _, _. split; [done|]. split; [done|].
        split; [unfold Routes.count_if; simpl; lia|].
        split; [unfold Routes.count_if; simpl; lia|].
        split; [done|]. split; [done|].
        intros link [=]%list_elem_of_singleton. }
    destruct (on_retry up) as [m|out2] eqn:Hretry.
    { eexists _, _, _. split; [done|]. split; [done|].
      split; [unfold Routes.count_if; simpl; lia|].
      split; [unfold Routes.count_if; simpl; lia|].
      split; [done|]. split; [done|].
      intros link [[=]|[=]%list_elem_of_singleton]%elem_of_cons. }
    destruct (download_finish_calls out2 (on_file up)) as (Hd & Hf & Hlink).
    destruct (download_finish out2 (on_file up)) as [o cs] eqn:Hfin.
    simpl in Hd, Hf, Hlink.
    eexists _, _, _. split; [done|]. split; [done|].
    unfold Routes.count_if in *. simpl.
    split; [lia|]. split; [lia|]. split; [done|]. split; [done|].
    intros link [[=]|[[=]|Hin]%elem_of_cons]%elem_of_cons.
    exists out2. split; [by right|by apply Hlink].
  - destruct (download_finish_calls out (on_file up)) as (Hd & Hf & Hlink).
    destruct (download_finish out (on_file up)) as [o cs] eqn:Hfin.
    simpl in Hd, Hf, Hlink.
    eexists _, _, _. split; [done|]. split; [done|].
    unfold Routes.count_if in *. simpl.
    split; [lia|]. split; [lia|].
    split; [exists sent1; split; [done|lia]|]. split; [done|].
    intros link [[=]|Hin]%elem_of_cons.
    exists out. split; [by left|by apply Hlink].
Qed.

Lemma handleDownload_bounded_witness :
  exists s' o cs,
    handleDownload Samples.server_env (init 5000) Samples.download_body
      Samples.retry_fails = Some (s', o, cs) /\
    loginInFlight (vars s') = None /\
    Routes.count_if Routes.is_download cs <= 2.
Proof.
  destruct (handleDownload_bounded Samples.server_env (init 5000)
              Samples.download_body Samples.retry_fails eq_refl)
    as (s' & o & cs & H1 & H2 & H3 & _).
  exists s', o, cs. split; [exact H1|]. split; [exact H2|exact H3].
Defined.

(** X6. A download served from the cache.  In a reachable state with a
    fresh token, a download with a valid [file_id] whose [/download] reply
    is 2xx with a link, and whose file is fetched with a 2xx, is answered
    200 with the text of the file; exactly two requests go upstream, the
    [/download] carrying the cached token and the fetch of the link; no
    [POST /login] is sent and the module variables are unchanged. *)
Theorem handleDownload_with_fresh_token e s b up token out link fr :
  reachable e s ->
  fresh_token (vars s) (clock s) = Some token ->
  negb (JS.isFinite (file_id b)) || JS.le_zero (file_id b) = false ->
  on_download up = Upstream.Replied out ->
  download_link out = Some link ->
  on_file up = Upstream.Replied fr ->
  JS.status_ok (Upstream.fr_status fr) = true ->
  exists s',
    handleDownload e s b up =
      Some (s', Responded (sendText 200 (Upstream.fr_body fr)),
            [PostDownload (Some token) (file_id b)
               (JS.to_string (JS.or (sub_format b) (JS.VStr "srt")));
             GetFile link]) /\
    vars s' = vars s /\ netlog s' = netlog s /\ logins s' = logins s.
Proof.
  intros Hreach Hf Hv Hdl Hlink Hfile Hok.
  assert (Hct : cachedToken (vars s) = Some token /\ JS.str_truthy token = true).
  { unfold fresh_token in Hf. destruct (cachedToken (vars s)) as [t'|]; [|done].
    destruct (JS.str_truthy t') eqn:E; [|done]. simpl in Hf.
    destruct (_ <? _)%Z; [|done]. by injection Hf as ->. }
  destruct Hct as [Hct Htr].
  pose proof (ServerProofs.credentials_of_token e s token Hreach Hct) as Hc.
  assert (H401 : (Upstream.dr_status out =? 401)%Z = false).
  { unfold download_link in Hlink.
    destruct (JS.status_ok (Upstream.dr_status out)) eqn:E; [|done].
    unfold JS.status_ok in E. apply andb_prop in E as [_ E].
    apply Z.leb_le in E. apply Z.eqb_neq. lia. }
  unfold handleDownload.
  rewrite Hv, (ServerProofs.osLogin_await_fresh e s (on_login up) token Hc Hf).
  rewrite Hdl, H401. unfold download_finish. rewrite Hlink, Hfile, Hok. simpl.
  unfold bearer. rewrite Htr. by eexists.
Qed.

Lemma handleDownload_with_fresh_token_witness :
  exists s s',
    run Samples.server_env (init 5000)
      [EvCall; EvReply 0 (Samples.login_ok "T"); EvFinally 0; EvResume 0] = Some s /\
    handleDownload Samples.server_env s Samples.download_body
      {| on_login := Samples.login_rejected;
         on_download := Samples.download_ok "https://dl.example/f" JS.VUndef;
         on_relogin := Samples.login_rejected;
         on_retry := Samples.download_error 500 "unused";
         on_file := Samples.file_ok |}
    = Some (s', Responded (sendText 200 (Upstream.fr_body Samples.file_reply)),
            [PostDownload (Some "T") (JS.Finite 12345) "srt";
             GetFile "https://dl.example/f"]) /\
    netlog s' = netlog s.
Proof.
  eexists.
  match goal with |- exists s', ?A = Some ?s /\ _ =>
    assert (H1 : A = Some s) by (vm_compute; reflexivity)
  end.
  edestruct (handleDownload_with_fresh_token Samples.server_env _
               Samples.download_body
               {| on_login := Samples.login_rejected;
                  on_download := Samples.download_ok "https://dl.example/f" JS.VUndef;
                  on_relogin := Samples.login_rejected;
                  on_retry := Samples.download_error 500 "unused";
                  on_file := Samples.file_ok |}
               "T" (Samples.download_reply "https://dl.example/f" JS.VUndef)
               "https://dl.example/f" Samples.file_reply
               (ex_intro _ 5000%Z (ex_intro _ _ H1)))
    as (s' & H2 & _ & H3 & _); try reflexivity.
  exists s'. split; [exact H1|]. split; [exact H2|exact H3].
Defined.

(** ** The state after a request *)

Lemma run_app e evs1 : forall s evs2 s1,
  run e s evs1 = Some s1 -> run e s (evs1 ++ evs2) = run e s1 evs2.
Proof.
  induction evs1 as [|a evs1 IH]; intros s evs2 s1; simpl.
  - by intros [= ->].
  - destruct (step e s a) as [s0|]; [|done]. apply IH.
Qed.

Lemma reachable_run e s evs s' :
  reachable e s -> run e s evs = Some s' -> reachable e s'.
Proof.
  intros (t0 & evs0 & H0) H. exists t0, (evs0 ++ evs).
  by rewrite (run_app _ _ _ _ _ H0).
Qed.

(** An awaited [osLogin()] is a run of the event loop. *)
Lemma osLogin_await_run e s f s1 r :
  osLogin_await e s f = Some (s1, r) -> exists evs, run e s evs = Some s1.
Proof.
  unfold osLogin_await.
  destruct (callers (osLogin_call e s) !! length (callers s)) as [[id|r0]|];
    [| |done].
  - destruct (run e (osLogin_call e s) _) as [s2|] eqn:Hr; [|done].
    destruct (callers s2 !! length (callers s)) as [[|r2]|]; try done.
    intros [= <- <-]. eexists (EvCall :: _). simpl. exact Hr.
  - intros [= <- <-]. by exists [EvCall].
Qed.

Lemma handleDownload_run e s b up s' o cs :
  handleDownload e s b up = Some (s', o, cs) -> exists evs, run e s evs = Some s'.
Proof.
  unfold handleDownload. destruct (negb _ || _).
  { intros [= <- <- <-]. by exists []. }
  destruct (osLogin_await e s (on_login up)) as [[s1 [token|er]]|] eqn:E1; [| |done].
  2:{ intros [= <- <- <-]. by eapply osLogin_await_run. }
  destruct (osLogin_await_run _ _ _ _ _ E1) as [evs1 H1].
  destruct (on_download up) as [m|out].
  { intros [= <- <- <-]. by exists evs1. }
  destruct (Upstream.dr_status out =? 401)%Z.
  - destruct (osLogin_await e (invalidate s1) (on_relogin up))
      as [[s2 r2]|] eqn:E2; [|done].
    destruct (osLogin_await_run _ _ _ _ _ E2) as [evs2 H2].
    assert (Hrun : run e s (evs1 ++ EvInvalidate :: evs2) = Some s2).
    { by rewrite (run_app _ _ _ _ _ H1). }
    destruct r2 as [token2|er]; [|intros [= <- <- <-]; by eexists].
    destruct (on_retry up) as [m|out2]; [intros [= <- <- <-]; by eexists|].
    destruct (download_finish out2 (on_file up)).
    intros [= <- <- <-]. by eexists.
  - destruct (download_finish out (on_file up)).
    intros [= <- <- <-]. by exists evs1.
Qed.

Lemma handleDownload_total e s b up :
  loginInFlight (vars s) = None ->
  exists s' o cs,
    handleDownload e s b up = Some (s', o, cs) /\ loginInFlight (vars s') = None.
Proof.
  intros Hfl. unfold handleDownload. destruct (negb _ || _); [by eexists _, _, _|].
  destruct (osLogin_await_total e s (on_login up) Hfl) as (s1 & r1 & -> & Hfl1 & _).
  destruct r1 as [token|er]; [|by eexists _, _, _].
  destruct (on_download up) as [m|out]; [by eexists _, _, _|].
  destruct (Upstream.dr_status out =? 401)%Z.
  - destruct (osLogin_await_total e (invalidate s1) (on_relogin up) Hfl1)
      as (s2 & r2 & -> & Hfl2 & _).
    destruct r2 as [token2|er]; [|by eexists _, _, _].
    destruct (on_retry up) as [m|out2]; [by eexists _, _, _|].
    destruct (download_finish out2 (on_file up)). by eexists _, _, _.
  - destruct (download_finish out (on_file up)). by eexists _, _, _.
Qed.

(** X7. Requests served one after the other never leave the server stuck.
    In a reachable state with no login in flight, every request is
    answered, whatever the upstream replies; the state it leaves is again
    reachable, so that the spacing of login requests and the other
    invariants of the login code hold across requests, and again has no
    login in flight, so that the next request is answered too. *)
Theorem serve_answers_and_stays_idle e s req b search up :
  reachable e s ->
  loginInFlight (vars s) = None ->
  exists s' resp cs,
    Routes.serve e s req b search up = Some (s', resp, cs) /\
    reachable e s' /\ loginInFlight (vars s') = None /\
    (clock s <= clock s')%Z.
Proof.
  intros Hreach Hfl. unfold Routes.serve.
  destruct (String.eqb (Http.method req) "OPTIONS").
  { eexists _, _, _. split; [done|]. split; [done|]. split; [done|lia]. }
  destruct (String.eqb (Http.pathname req) "/os/health").
  { eexists _, _, _. split; [done|]. split; [done|]. split; [done|lia]. }
  destruct (_ && _).
  { destruct (handleSubtitles req search) as [o cs].
    eexists _, _, _. split; [done|]. split; [done|]. split; [done|lia]. }
  destruct (_ && _).
  2:{ eexists _, _, _. split; [done|]. split; [done|]. split; [done|lia]. }
  destruct b as [parsed|].
  2:{ eexists _, _, _. split; [done|]. split; [done|]. split; [done|lia]. }
  destruct (handleDownload_total e s parsed up Hfl) as (s' & o & cs & H & Hfl').
  rewrite H. destruct (handleDownload_run _ _ _ _ _ _ _ H) as [evs Hrun].
  eexists _, _, _. split; [done|]. split; [by eapply reachable_run|].
  split; [done|].
  destruct Hreach as (t0 & evs0 & H0).
  assert (Hmono : forall evs s1 s2, run e s1 evs = Some s2 -> (clock s1 <= clock s2)%Z).
  { clear. induction evs as [|ev evs IH]; intros s1 s2; simpl.
    - intros [= ->]. lia.
    - destruct (step e s1 ev) as [s0|] eqn:E; [|done]. intros Hr.
      apply IH in Hr. enough (clock s1 <= clock s0)%Z by lia. clear Hr.
      destruct ev; simpl in E.
      + injection E as <-. unfold osLogin_call, send_login.
        repeat case_match; simpl; lia.
      + injection E as <-. simpl. lia.
      + destruct (0 <=? d)%Z eqn:Hd; [|done]. injection E as <-. simpl. lia.
      + repeat case_match; try done. injection E as <-. simpl. lia.
      + repeat case_match; try done. injection E as <-.
        unfold login_reply. simpl. lia.
      + repeat case_match; try done. injection E as <-. simpl. lia.
      + repeat case_match; try done. injection E as <-. simpl. lia. }
  by eapply Hmono.
Qed.

Lemma serve_answers_and_stays_idle_witness :
  exists s' resp cs,
    Routes.serve Samples.server_env (init 5000)
      {| Http.method := "POST"; Http.pathname := "/os/download";
         Http.searchParams := [] |}
      (Some Samples.download_body) Samples.search_ok Samples.retry_fails
    = Some (s', resp, cs) /\
    reachable Samples.server_env s' /\ loginInFlight (vars s') = None /\
    (5000 <= clock s')%Z.
Proof.
  apply (serve_answers_and_stays_idle Samples.server_env (init 5000)).
  - exists 5000%Z, []. reflexivity.
  - reflexivity.
Defined.

End ServerHandlerProofs.


(** * Strings and query parameters *)

Module TextProofs.

(** ** [trim] *)

Lemma trim_start_head s :
  JS.trim_start s = EmptyString \/
  exists c r, JS.trim_start s = String c r /\ JS.is_ws c = false.
Proof.
  induction s as [|c s IH]; [by left|]. cbn [JS.trim_start].
  destruct (JS.is_ws c) eqn:E; [done|]. right. by exists c, s.
Qed.

Lemma trim_end_idem s : JS.trim_end (JS.trim_end s) = JS.trim_end s.
Proof.
  induction s as [|c s IH]; [done|]. cbn [JS.trim_end].
  destruct (JS.trim_end s) as [|d r] eqn:E.
  - destruct (JS.is_ws c) eqn:Ec; [done|]. cbn [JS.trim_end]. by rewrite Ec.
  - cbn [JS.trim_end]. cbn [JS.trim_end] in IH. by rewrite IH.
Qed.

Lemma trim_end_head c r :
  JS.is_ws c = false -> exists r', JS.trim_end (String c r) = String c r'.
Proof.
  intros Hc. cbn [JS.trim_end]. destruct (JS.trim_end r); [|by eexists].
  rewrite Hc. by eexists.
Qed.

(** Trimming twice is trimming once. *)
Lemma trim_idem s : JS.trim (JS.trim s) = JS.trim s.
Proof.
  unfold JS.trim. destruct (trim_start_head s) as [->|(c & r & -> & Hc)]; [done|].
  destruct (trim_end_head c r Hc) as (r' & E). rewrite E.
  cbn [JS.trim_start]. rewrite Hc, <- E. apply trim_end_idem.
Qed.

(** ** The statuses [new Response] accepts with a body *)

Lemma response_init_spec st :
  (Http.response_init st = None /\
   (200 <= st <= 599)%Z /\ st <> 204%Z /\ st <> 205%Z /\ st <> 304%Z) \/
  (exists er, Http.response_init st = Some er /\
     ((st < 200)%Z \/ (599 < st)%Z \/ st = 204%Z \/ st = 205%Z \/ st = 304%Z)).
Proof.
  unfold Http.response_init.
  destruct (st <? 200)%Z eqn:E1; [right; eexists; split; [done|]; lia|].
  destruct (599 <? st)%Z eqn:E2; [right; eexists; split; [done|]; lia|].
  cbn [orb].
  destruct (st =? 204)%Z eqn:E3; [right; eexists; split; [done|]; lia|].
  destruct (st =? 205)%Z eqn:E4; [right; eexists; split; [done|]; lia|].
  destruct (st =? 304)%Z eqn:E5; [right; eexists; split; [done|]; lia|].
  left. cbn [orb]. split; [done|]. lia.
Qed.

(** ** Trailing slashes *)

Lemma strip_app_slash p :
  Tronapp.strip_trailing_slashes (p +:+ "/") = Tronapp.strip_trailing_slashes p.
Proof.
  induction p as [|c p IH]; [done|].
  change (String c p +:+ "/") with (String c (p +:+ "/")).
  cbn [Tronapp.strip_trailing_slashes]. by rewrite IH.
Qed.

Lemma strip_no_trailing_slash p :
  Routes.ends_with_slash (Tronapp.strip_trailing_slashes p) = false.
Proof.
  induction p as [|c p IH]; [done|]. cbn [Tronapp.strip_trailing_slashes].
  destruct (Tronapp.strip_trailing_slashes p) as [|d r].
  - destruct (Ascii.eqb c "/") eqn:E; [done|]. cbn [Routes.ends_with_slash]. done.
  - exact IH.
Qed.

(** ** [URLSearchParams.set] *)

Lemma param_set_elem k v ps k0 v0 :
  (k0, v0) ∈ Http.param_set k v ps -> (k0 = k /\ v0 = v) \/ (k0, v0) ∈ ps.
Proof.
  induction ps as [|[k' v'] ps IH]; cbn [Http.param_set].
  - intros [= -> ->]%list_elem_of_singleton. by left.
  - destruct (String.eqb k k') eqn:E.
    + intros [[= -> ->]|Hin]%elem_of_cons; [by left|].
      apply list_elem_of_filter in Hin as [_ Hin]. right. by apply elem_of_cons; right.
    + intros [[= -> ->]|Hin]%elem_of_cons.
      * right. apply elem_of_cons. by left.
      * destruct (IH Hin) as [?|?]; [by left|]. right. apply elem_of_cons. by right.
Qed.

Lemma param_set_keys k v ps k0 :
  k0 ∈ (Http.param_set k v ps).*1 -> k0 = k \/ k0 ∈ ps.*1.
Proof.
  intros ([k1 v1] & -> & Hin)%list_elem_of_fmap.
  destruct (param_set_elem _ _ _ _ _ Hin) as [[-> _]|H]; [by left|].
  right. apply list_elem_of_fmap. by exists (k1, v1).
Qed.

Lemma param_set_NoDup k v ps :
  NoDup ps.*1 -> NoDup (Http.param_set k v ps).*1.
Proof.
  induction ps as [|[k' v'] ps IH]; cbn [Http.param_set].
  - intros _. apply NoDup_singleton.
  - rewrite fmap_cons. intros [Hk Hnd]%NoDup_cons.
    destruct (String.eqb k k') eqn:E.
    + rewrite fmap_cons. apply NoDup_cons. split.
      * intros ([k1 v1] & Heq & Hin)%list_elem_of_fmap. simpl in Heq. subst k1.
        apply list_elem_of_filter in Hin as [Hne _]. simpl in Hne.
        by rewrite String.eqb_refl in Hne.
      * eapply sublist_NoDup; [exact Hnd|]. apply fmap_sublist, sublist_filter.
    + csimpl. apply NoDup_cons. split; [|by apply IH].
      intros [->|Hin]%param_set_keys; [|done].
      by rewrite String.eqb_refl in E.
Qed.

End TextProofs.

(** * The routers *)

Module RouterProofs.

(** ** CORS on every answer *)

Lemma server_cors h : Http.has_cors (Server.setCors h).
Proof.
  unfold Http.has_cors, Server.setCors.
  repeat split; HandlerProofs.header_lookup; done.
Qed.

Ltac cors_set :=
  apply HandlerProofs.has_cors_set; [by vm_compute..|].

Lemma sendJson_cors st b : Http.has_cors (Server.headers (Server.sendJson st b)).
Proof.  unfold Server.sendJson. cbn [Server.headers]. cors_set. apply server_cors. Qed.

Lemma sendText_cors st t : Http.has_cors (Server.headers (Server.sendText st t)).
Proof.  unfold Server.sendText. cbn [Server.headers]. cors_set. apply server_cors. Qed.

Lemma worker_jsonResponse_cors b st :
  Http.has_cors (Worker.headers (Worker.jsonResponse b st)).
Proof. apply HandlerProofs.worker_cors. Qed.

Lemma tronapp_jsonResponse_cors b st :
  Http.has_cors (Tronapp.headers (Tronapp.jsonResponse b st)).
Proof. apply HandlerProofs.tronapp_cors. Qed.

(** The answer in the goal is found by its head, never by unfolding the
    header maps. *)
Ltac cors :=
  lazymatch goal with
  | |- Http.has_cors (Server.headers (Server.sendJson _ _)) => apply sendJson_cors
  | |- Http.has_cors (Server.headers (Server.sendText _ _)) => apply sendText_cors
  | |- Http.has_cors (Worker.headers (Worker.jsonResponse _ _)) =>
      apply worker_jsonResponse_cors
  | |- Http.has_cors (Tronapp.headers (Tronapp.jsonResponse _ _)) =>
      apply tronapp_jsonResponse_cors
  | |- Http.has_cors (Worker.headers (Worker.Build_Response _ _ _)) =>
      cbn [Worker.headers]; do 2 cors_set; apply HandlerProofs.worker_cors
  | |- Http.has_cors (Tronapp.headers (Tronapp.Build_Response _ _ _)) =>
      cbn [Tronapp.headers]; apply HandlerProofs.tronapp_stream_headers
  end.

Lemma answer_cors o :
  (forall r, o = Server.Responded r -> Http.has_cors (Server.headers r)) ->
  Http.has_cors (Server.headers (Server.answer o)).
Proof.  destruct o as [r|er]; intros H; [by apply H|apply sendJson_cors]. Qed.

Lemma download_finish_cors out file r :
  (Server.download_finish out file).1 = Server.Responded r ->
  Http.has_cors (Server.headers r).
Proof.
  unfold Server.download_finish. cbv zeta. repeat case_match; cbn [fst snd]; intros [= <-]; cors.
Qed.

Lemma handleSubtitles_cors req f r :
  (Server.handleSubtitles req f).1 = Server.Responded r ->
  Http.has_cors (Server.headers r).
Proof.
  unfold Server.handleSubtitles. cbv zeta. repeat case_match; cbn [fst snd]; intros [= <-]; cors.
Qed.

Lemma handleDownload_cors e s b up s' o cs r :
  Server.handleDownload e s b up = Some (s', o, cs) ->
  o = Server.Responded r -> Http.has_cors (Server.headers r).
Proof.
  unfold Server.handleDownload. intros H ->.
  repeat case_match; simplify_eq; try cors.
  all: match goal with
       | H : Server.download_finish _ _ = (_, _) |- _ =>
           eapply download_finish_cors; by rewrite H
       end.
Qed.

Lemma worker_search_cors req up r :
  (Worker.search req up).1 = inl r -> Http.has_cors (Worker.headers r).
Proof.
  unfold Worker.search, Worker.jsonResponse_of. cbv zeta.
  repeat case_match; cbn [fst snd]; intros [= <-]; cors.
Qed.

Lemma worker_download_file_cors env s now req up r :
  (Worker.download_file env s now req up).1.2 = inl r ->
  Http.has_cors (Worker.headers r).
Proof.
  unfold Worker.download_file, Worker.jsonResponse_of. cbv zeta.
  repeat case_match; cbn [fst snd]; intros [= <-]; cors.
Qed.

Lemma tronapp_handleSearch_cors env req up r :
  (Tronapp.handleSearch env req up).1 = inl r -> Http.has_cors (Tronapp.headers r).
Proof.
  unfold Tronapp.handleSearch, Tronapp.jsonResponse_of. cbv zeta.
  repeat case_match; cbn [fst snd]; intros [= <-]; cors.
Qed.

Lemma tronapp_handleDownload_cors env s now b up r :
  (Tronapp.handleDownload env s now b up).1.2 = inl r ->
  Http.has_cors (Tronapp.headers r).
Proof.
  unfold Tronapp.handleDownload, Tronapp.jsonResponse_of. cbv zeta.
  repeat case_match; cbn [fst snd]; intros [= <-]; cors.
Qed.

Lemma tronapp_handleDownloadFile_cors dec env s now req up r :
  (Tronapp.handleDownloadFile dec env s now req up).1.2 = inl r ->
  Http.has_cors (Tronapp.headers r).
Proof.
  unfold Tronapp.handleDownloadFile, Tronapp.jsonResponse_of. cbv zeta.
  repeat case_match; cbn [fst snd]; intros [= <-]; cors.
Qed.

(** X8. Whatever the request and whatever the upstream answers, the answer
    of each of the three programs carries the CORS headers: the preflight
    reply, the replies of every route, the 404, and the 500 sent for an
    error caught by the router. *)
Theorem every_answer_has_cors :
  (forall e s req b search up s' resp cs,
      Routes.serve e s req b search up = Some (s', resp, cs) ->
      Http.has_cors (Server.headers resp)) /\
  (forall env s now req up,
      Http.has_cors (Worker.headers (Worker.fetch env s now req up).1.2)) /\
  (forall decode env s now req post up,
      Http.has_cors
        (Tronapp.headers (Tronapp.fetch decode env s now req post up).1.2)).
Proof.
  split; [|split].
  - intros e s req b search up s' resp cs. unfold Routes.serve.
    destruct (String.eqb (Http.method req) "OPTIONS").
    { intros [= <- <- <-]. apply server_cors. }
    destruct (String.eqb (Http.pathname req) "/os/health").
    { intros [= <- <- <-]. apply sendJson_cors. }
    destruct (_ && _).
    { destruct (Server.handleSubtitles req search) as [o cs'] eqn:E.
      intros [= <- <- <-]. apply answer_cors. intros r ->.
      eapply handleSubtitles_cors. by rewrite E. }
    destruct (_ && _).
    { destruct b as [parsed|]; [|intros [= <- <- <-]; apply sendJson_cors].
      destruct (Server.handleDownload e s parsed up) as [[[s1 o] cs']|] eqn:E; [|done].
      intros [= <- <- <-]. apply answer_cors. intros r Ho.
      eapply handleDownload_cors; [exact E|exact Ho]. }
    intros [= <- <- <-]. apply sendJson_cors.
  - intros env s now req up. unfold Worker.fetch.
    destruct (String.eqb (Http.method req) "OPTIONS");
      [apply HandlerProofs.worker_cors|].
    destruct (_ && _).
    { destruct (Worker.search req up) as [[r|er] cs] eqn:E;
        [|apply worker_jsonResponse_cors].
      eapply worker_search_cors. by rewrite E. }
    destruct (_ && _); [|apply worker_jsonResponse_cors].
    destruct (Worker.download_file env s now req up) as [[s1 [r|er]] cs] eqn:E;
      [|apply worker_jsonResponse_cors].
    eapply worker_download_file_cors. by rewrite E.
  - intros decode env s now req post up. unfold Tronapp.fetch.
    destruct (String.eqb (Http.method req) "OPTIONS");
      [apply HandlerProofs.tronapp_cors|].
    cbv zeta.
    destruct (_ && _); [apply tronapp_jsonResponse_cors|].
    destruct (_ && _); [apply tronapp_jsonResponse_cors|].
    destruct (_ && _).
    { destruct (Tronapp.handleSearch env req up) as [[r|er] cs] eqn:E;
        [|apply tronapp_jsonResponse_cors].
      eapply tronapp_handleSearch_cors. by rewrite E. }
    destruct (_ && _).
    { destruct (Tronapp.handleDownload env s now post up) as [[s1 [r|er]] cs] eqn:E;
        [|apply tronapp_jsonResponse_cors].
      eapply tronapp_handleDownload_cors. by rewrite E. }
    destruct (_ && _); [|apply tronapp_jsonResponse_cors].
    destruct (Tronapp.handleDownloadFile decode env s now req up)
      as [[s1 [r|er]] cs] eqn:E; [|apply tronapp_jsonResponse_cors].
    eapply tronapp_handleDownloadFile_cors. by rewrite E.
Qed.

(** ** What the Worker forwards to [/subtitles] *)

Lemma pick_spec ps keys :
  Worker.pick ps keys = EmptyString \/
  exists k raw,
    k ∈ keys /\ Http.param_get k ps = Some raw /\
    Worker.pick ps keys = JS.trim raw /\ JS.str_truthy (JS.trim raw) = true.
Proof.
  induction keys as [|k keys IH]; [by left|]. cbn [Worker.pick].
  destruct (Http.param_get k ps) as [raw|] eqn:E.
  - destruct (JS.str_truthy (JS.trim raw)) eqn:Et.
    + right. exists k, raw. split; [apply elem_of_cons; by left|done].
    + destruct IH as [?|(k' & raw' & ? & ?)]; [by left|right].
      exists k', raw'. split; [apply elem_of_cons; by right|done].
  - destruct IH as [?|(k' & raw' & ? & ?)]; [by left|right].
    exists k', raw'. split; [apply elem_of_cons; by right|done].
Qed.

Lemma worker_set_if_elem k v ps k0 v0 :
  (k0, v0) ∈ Worker.set_if k v ps ->
  (k0 = k /\ v0 = v /\ JS.str_truthy v = true) \/ (k0, v0) ∈ ps.
Proof.
  unfold Worker.set_if. destruct (JS.str_truthy v) eqn:E; [|by right].
  intros [[-> ->]|?]%TextProofs.param_set_elem; [by left|by right].
Qed.

Lemma worker_set_if_NoDup k v ps :
  NoDup ps.*1 -> NoDup (Worker.set_if k v ps).*1.
Proof.
  unfold Worker.set_if. destruct (JS.str_truthy v); [|done].
  apply TextProofs.param_set_NoDup.
Qed.

Lemma worker_search_calls req up :
  exists q, (Worker.search req up).2 = [Worker.GetSubtitles q].
Proof.
  unfold Worker.search. cbv zeta. eexists.
  destruct (Worker.on_search up) as [m|r]; [done|]. by destruct (negb _).
Qed.

(** X9. The Worker's [/search] sends one [GET /subtitles] whose query holds
    only parameters of the fixed list (query, languages, tmdb_id, imdb_id,
    season_number, episode_number), each at most once; every value sent is
    not empty, is trimmed, and is the trimmed value of the request's
    parameter of the same name, [languages] being read from [langs] as
    well.  No other parameter of the request reaches the upstream. *)
Theorem worker_search_forwards_known_parameters req up :
  exists q,
    (Worker.search req up).2 = [Worker.GetSubtitles q] /\
    NoDup q.*1 /\
    forall k v, (k, v) ∈ q ->
      k ∈ Routes.SEARCH_PARAMS /\
      JS.str_truthy v = true /\ JS.trim v = v /\
      exists k' raw,
        Http.param_get k' (Http.searchParams req) = Some raw /\
        v = JS.trim raw /\ (k' = k \/ (k = "languages" /\ k' = "langs")).
Proof.
  unfold Worker.search. cbv zeta.
  match goal with
  | |- context [Worker.GetSubtitles ?q] => exists q
  end.
  split; [|split].
  - destruct (Worker.on_search up) as [m|r]; [done|]. by destruct (negb _).
  - do 6 apply worker_set_if_NoDup. apply NoDup_nil_2.
  - intros k v Hin.
    assert (Hpick : forall keys,
      JS.str_truthy (Worker.pick (Http.searchParams req) keys) = true ->
      JS.trim (Worker.pick (Http.searchParams req) keys)
        = Worker.pick (Http.searchParams req) keys /\
      exists k' raw,
        k' ∈ keys /\ Http.param_get k' (Http.searchParams req) = Some raw /\
        Worker.pick (Http.searchParams req) keys = JS.trim raw).
    { intros keys Ht.
      destruct (pick_spec (Http.searchParams req) keys)
        as [E|(k' & raw & Hk & Hg & E & _)]; [by rewrite E in Ht|].
      split; [rewrite E; apply TextProofs.trim_idem|]. by exists k', raw. }
    repeat (apply worker_set_if_elem in Hin as [(-> & -> & Ht)|Hin];
            [destruct (Hpick _ Ht) as (Htrim & k' & raw & Hk & Hg & E);
             split; [unfold Routes.SEARCH_PARAMS; rewrite !elem_of_cons; tauto|];
             split; [done|]; split; [done|];
             exists k', raw; split; [done|]; split; [done|];
             rewrite !elem_of_cons, elem_of_nil in Hk; intuition|]).
    by apply elem_of_nil in Hin.
Qed.

(** ** Trailing slashes in the path *)

(** X10. The tronapp router ignores trailing slashes: a request whose path
    has one more slash at the end is routed and answered exactly as the
    request without it. *)
Theorem tronapp_ignores_trailing_slash decode env s now m p ps post up :
  Tronapp.fetch decode env s now
    {| Http.method := m; Http.pathname := p +:+ "/"; Http.searchParams := ps |}
    post up =
  Tronapp.fetch decode env s now
    {| Http.method := m; Http.pathname := p; Http.searchParams := ps |}
    post up.
Proof.
  unfold Tronapp.fetch. cbn [Http.method Http.pathname].
  rewrite TextProofs.strip_app_slash.
  unfold Tronapp.handleSearch, Tronapp.handleDownloadFile.
  cbn [Http.searchParams]. reflexivity.
Qed.

(** ** The address of an API request *)

(** X11. [osFetch] joins the base address and the path with exactly one
    slash: the base never ends with a slash, a slash at the end of the
    configured base changes nothing, and a path is addressed the same with
    or without its leading slash. *)
Theorem api_url_joined_by_one_slash b path :
  b <> EmptyString ->
  Routes.starts_with_slash path = false ->
  Routes.ends_with_slash (Routes.api_base (Some b)) = false /\
  Routes.api_url (Routes.api_base (Some (b +:+ "/"))) ("/" +:+ path) =
    Routes.api_base (Some b) +:+ "/" +:+ path /\
  Routes.api_url (Routes.api_base (Some b)) path =
    Routes.api_base (Some b) +:+ "/" +:+ path.
Proof.
  intros Hb Hp. split; [apply TextProofs.strip_no_trailing_slash|].
  unfold Routes.api_url. rewrite Hp. cbn [Routes.starts_with_slash String.append].
  split; [|done]. unfold Routes.api_base.
  destruct b as [|c r]; [done|].
  change (String c r +:+ "/") with (String c (r +:+ "/")).
  cbn [JS.or_default JS.str_truthy].
  change (String c (r +:+ "/")) with (String c r +:+ "/").
  by rewrite TextProofs.strip_app_slash.
Qed.

Lemma api_url_joined_by_one_slash_witness :
  Routes.api_url (Routes.api_base (Some ("https://api.example/v1" +:+ "/")))
    ("/" +:+ "login") =
  Routes.api_base (Some "https://api.example/v1") +:+ "/" +:+ "login".
Proof.
  destruct (api_url_joined_by_one_slash "https://api.example/v1" "login")
    as (_ & H & _); [discriminate|reflexivity|exact H].
Defined.

End RouterProofs.

(** * The tronapp Worker *)

Module TronappProofs.
Import Tronapp.

(** ** [login] *)

Lemma login_returned env s now f s1 t cs :
  login env s now f = (s1, Returned t, cs) ->
  JS.truthy t = true /\ cachedToken s1 = t /\ token_valid s1 now = true /\
  ((cs = [] /\ s1 = s) \/
   (cs = [PostLogin] /\ cachedTokenExpMs s1 = (now + TOKEN_LIFE_MS)%Z)).
Proof.
  unfold login. destruct (token_valid s now) eqn:Hv.
  { intros [= <- <- <-].
    unfold token_valid in Hv. apply andb_prop in Hv as [Ht Hexp].
    split; [done|]. split; [done|].
    split; [unfold token_valid; by rewrite Ht, Hexp|]. by left. }
  destruct (getEnvOrThrow "OS_USERNAME" _); [|done].
  destruct (getEnvOrThrow "OS_PASSWORD" _); [|done].
  destruct (getEnvOrThrow "OS_API_KEY" _); [|done].
  destruct f as [m|r]; [done|].
  destruct (negb (JS.status_ok (Upstream.lr_status r))); [done|].
  cbn [orb]. destruct (negb (JS.truthy _)) eqn:Ht; [done|].
  apply negb_false_iff in Ht. intros [= <- <- <-].
  split; [done|]. split; [done|].
  split; [|by right].
  unfold token_valid. cbn [cachedToken cachedTokenExpMs]. rewrite Ht.
  cbn [andb]. apply Z.ltb_lt. unfold EXPIRY_MARGIN_MS, TOKEN_LIFE_MS. lia.
Qed.

Lemma login_failed env s now f s1 er cs :
  login env s now f = (s1, Failed er, cs) ->
  s1 = s /\ (cs = [] \/ cs = [PostLogin]).
Proof.
  unfold login. repeat case_match; intros [= <- <- <-]; split; auto.
Qed.

(** X12. What [login] guarantees.  A token it returns is truthy, is the
    token now cached, and is valid at the time of the call; it was either
    taken from the cache with nothing sent, or obtained with one
    [POST /login]; and any later call made before the cached expiry minus
    the margin returns the same token and sends nothing.  When [login]
    throws, the cache is as it was. *)
Theorem tronapp_login_contract env s now f :
  match login env s now f with
  | (s', Returned t, cs) =>
      JS.truthy t = true /\ cachedToken s' = t /\
      token_valid s' now = true /\
      ((cs = [] /\ s' = s) \/
       (cs = [PostLogin] /\ cachedTokenExpMs s' = (now + TOKEN_LIFE_MS)%Z)) /\
      (forall now' f',
          (now' < cachedTokenExpMs s' - EXPIRY_MARGIN_MS)%Z ->
          login env s' now' f' = (s', Returned t, []))
  | (s', Failed _, _) => s' = s
  end.
Proof.
  destruct (login env s now f) as [[s' [t|er]] cs] eqn:E.
  - destruct (login_returned _ _ _ _ _ _ _ E) as (Ht & Hc & Hv & Hcs).
    split; [done|]. split; [done|]. split; [done|]. split; [done|].
    intros now' f' Hlt. unfold login, token_valid. rewrite Hc, Ht.
    cbn [andb]. by rewrite (proj2 (Z.ltb_lt _ _)) by lia.
  - by apply login_failed in E as [-> _].
Qed.

Lemma login_without_api_key env s now f :
  missing (OS_API_KEY env) = true ->
  (login env s now f).1.1 = s /\ (login env s now f).2 = [].
Proof.
  intros Hk. unfold login, getEnvOrThrow. rewrite Hk.
  destruct (token_valid s now); [done|].
  destruct (missing (OS_USERNAME env)); [done|].
  by destruct (missing (OS_PASSWORD env)).
Qed.

(** ** Without the API key *)

(** X13. With the API key missing, the tronapp Worker sends no request to
    the OpenSubtitles API, whatever the route and whatever is cached, and
    its token cache is left as it was: [osFetch] reads the key before it
    sends.  Only the legacy [url=] download, which does not use the API,
    still goes out. *)
Theorem tronapp_without_api_key decode env s now req post up :
  missing (OS_API_KEY env) = true ->
  (fetch decode env s now req post up).1.1 = s /\
  Routes.count_if Routes.is_api_call (fetch decode env s now req post up).2 = 0.
Proof.
  intros Hk. unfold fetch.
  destruct (String.eqb (Http.method req) "OPTIONS"); [done|]. cbv zeta.
  destruct (_ && _); [done|]. destruct (_ && _); [done|].
  destruct (_ && _).
  { unfold handleSearch, getEnvOrThrow. rewrite Hk. cbv zeta.
    by destruct (negb _). }
  destruct (_ && _).
  { unfold handleDownload, getEnvOrThrow. rewrite Hk. cbv zeta.
    destruct (negb _); [done|].
    destruct (login_without_api_key env s now (on_login up) Hk) as [H1 H2].
    destruct (login env s now (on_login up)) as [[s1 r] cs].
    cbn [fst snd] in H1, H2. subst s1 cs. by destruct r. }
  destruct (_ && _); [|done].
  unfold handleDownloadFile, getEnvOrThrow. rewrite Hk. cbv zeta.
  destruct (_ && _).
  { destruct (decode _); [|done]. by destruct (on_file up). }
  destruct (negb _); [done|].
  destruct (login_without_api_key env s now (on_login up) Hk) as [H1 H2].
  destruct (login env s now (on_login up)) as [[s1 r] cs].
  cbn [fst snd] in H1, H2. subst s1 cs. by destruct r.
Qed.

Lemma tronapp_without_api_key_witness :
  (fetch Samples.decode_plain
     {| OS_API_KEY := None; OS_USERNAME := Some "user"; OS_PASSWORD := Some "pw" |}
     init 1000 Samples.download_file_request None
     (Samples.tronapp_script JS.VUndef)).1.1 = init /\
  Routes.count_if Routes.is_api_call
    (fetch Samples.decode_plain
       {| OS_API_KEY := None; OS_USERNAME := Some "user"; OS_PASSWORD := Some "pw" |}
       init 1000 Samples.download_file_request None
       (Samples.tronapp_script JS.VUndef)).2 = 0.
Proof. apply tronapp_without_api_key. reflexivity. Defined.

(** ** The requests of one [fetch] *)

(** The state and the requests of [fetch] are those of the handler of the
    route, or the state is unchanged and nothing is sent. *)
Lemma fetch_route decode env s now req post up :
  ((fetch decode env s now req post up).1.1 = s /\
   (fetch decode env s now req post up).2 = []) \/
  ((fetch decode env s now req post up).1.1 = s /\
   (fetch decode env s now req post up).2 = (handleSearch env req up).2) \/
  ((fetch decode env s now req post up).1.1 = (handleDownload env s now post up).1.1 /\
   (fetch decode env s now req post up).2 = (handleDownload env s now post up).2) \/
  ((fetch decode env s now req post up).1.1 =
     (handleDownloadFile decode env s now req up).1.1 /\
   (fetch decode env s now req post up).2 =
     (handleDownloadFile decode env s now req up).2).
Proof.
  unfold fetch. destruct (String.eqb (Http.method req) "OPTIONS"); [by left|].
  cbv zeta. destruct (_ && _); [by left|]. destruct (_ && _); [by left|].
  destruct (_ && _).
  { right; left. by destruct (handleSearch env req up) as [[r|er] cs]. }
  destruct (_ && _).
  { right; right; left.
    by destruct (handleDownload env s now post up) as [[s1 [r|er]] cs]. }
  destruct (_ && _); [|by left].
  right; right; right.
  by destruct (handleDownloadFile decode env s now req up) as [[s1 [r|er]] cs].
Qed.







(** ** Where files are fetched from *)

Lemma ensureToken_calls env s now f l :
  Worker.GetFile l ∉ (Worker.ensureToken env s now f).2.
Proof.
  unfold Worker.ensureToken. repeat case_match; cbn [snd];
    first [apply not_elem_of_nil | by intros ?%list_elem_of_singleton].
Qed.

Lemma login_calls env s now f l : GetFile l ∉ (login env s now f).2.
Proof.
  unfold login. repeat case_match; cbn [snd];
    first [apply not_elem_of_nil | by intros ?%list_elem_of_singleton].
Qed.

Ltac not_a_file Hin :=
  repeat (apply elem_of_app in Hin as [Hin|Hin];
          [|by apply list_elem_of_singleton in Hin]);
  first [done
        |by apply elem_of_nil in Hin
        |by apply list_elem_of_singleton in Hin
        |by eapply ensureToken_calls in Hin
        |by eapply login_calls in Hin].

(** X15. The two Workers fetch a file only from the link of a [/download]
    reply that was 2xx and whose JSON has a truthy [link]; the tronapp
    Worker also fetches the address given in the [url] parameter, decoded,
    when the request has no [file_id].  Nothing else is ever fetched
    outside the API. *)
Theorem file_fetched_from_download_link :
  (forall env s now req up l,
      Worker.GetFile l ∈ (Worker.fetch env s now req up).2 ->
      Routes.followed_link (Worker.on_download up) l) /\
  (forall decode env s now req post up l,
      GetFile l ∈ (fetch decode env s now req post up).2 ->
      Routes.followed_link (on_download up) l \/
      exists raw,
        Http.param_get "url" (Http.searchParams req) = Some raw /\
        decode raw = Some l /\
        JS.or_empty (Http.param_get "file_id" (Http.searchParams req)) = EmptyString).
Proof.
  split.
  - intros env s now req up l. unfold Worker.fetch.
    destruct (String.eqb (Http.method req) "OPTIONS"); [by intros ?%elem_of_nil|].
    destruct (_ && _).
    { destruct (RouterProofs.worker_search_calls req up) as [q Hq].
      destruct (Worker.search req up) as [[r|er] cs]; cbn [snd] in Hq |- *;
        subst cs; by intros ?%list_elem_of_singleton. }
    destruct (_ && _); [|by intros ?%elem_of_nil].
    assert (Hgoal : Worker.GetFile l ∈ (Worker.download_file env s now req up).2 ->
                    Routes.followed_link (Worker.on_download up) l).
    2:{ by destruct (Worker.download_file env s now req up) as [[s1 [r|er]] cs]. }
    unfold Worker.download_file. cbv zeta.
    destruct (negb (JS.str_truthy _)); [by intros ?%elem_of_nil|].
    pose proof (ensureToken_calls env s now (Worker.on_login up) l) as Hno.
    destruct (Worker.ensureToken env s now (Worker.on_login up)) as [[s1 [t|er]] cs];
      cbn [snd] in Hno; [|done].
    destruct (Worker.on_download up) as [m|dl] eqn:Hdl; cbn [snd];
      [intros Hin; not_a_file Hin|].
    destruct (negb (JS.status_ok _)) eqn:Hok; cbn [snd]; [intros Hin; not_a_file Hin|].
    apply negb_false_iff in Hok.
    destruct (Upstream.dr_json dl) as [j|] eqn:Hj; cbn [snd];
      [|intros Hin; not_a_file Hin].
    destruct (JS.truthy (Upstream.dj_link j)) eqn:Hl; cbn [snd];
      [|intros Hin; not_a_file Hin].
    intros Hin.
    assert (Hl' : Worker.GetFile l = Worker.GetFile (JS.to_string (Upstream.dj_link j))).
    { repeat case_match; cbn [snd] in Hin;
        (apply elem_of_app in Hin as [Hin|Hin];
         [not_a_file Hin|by apply list_elem_of_singleton in Hin]). }
    injection Hl' as ->. by exists dl, j.
  - intros decode env s now req post up l.
    destruct (fetch_route decode env s now req post up)
      as [[_ ->]|[[_ ->]|[[_ ->]|[_ ->]]]].
    + by intros ?%elem_of_nil.
    + unfold handleSearch. cbv zeta.
      repeat case_match; cbn [snd];
        first [by intros ?%elem_of_nil | by intros ?%list_elem_of_singleton].
    + unfold handleDownload. cbv zeta.
      pose proof (login_calls env s now (on_login up) l) as Hno.
      destruct (login env s now (on_login up)) as [[s1 [t|er]] cs]; cbn [snd] in Hno;
        repeat case_match; cbn [snd]; intros Hin; not_a_file Hin.
    + unfold handleDownloadFile. cbv zeta.
      destruct (negb (JS.str_truthy (JS.or_empty (Http.param_get "file_id" _)))) eqn:Hid.
      * apply negb_true_iff in Hid. cbn [andb].
        destruct (Http.param_get "url" (Http.searchParams req)) as [raw|] eqn:Hurl;
          cbn [JS.or_empty JS.str_truthy]; [|by intros ?%elem_of_nil].
        destruct (JS.str_truthy raw); [|by intros ?%elem_of_nil].
        destruct (decode raw) as [target|] eqn:Hdec; [|by intros ?%elem_of_nil].
        intros Hin. right. exists raw. split; [done|]. split; [|by destruct (JS.or_empty _)].
        assert (GetFile l = GetFile target) as [= ->]; [|done].
        destruct (on_file up); cbn [snd] in Hin;
          by apply list_elem_of_singleton in Hin.
      * cbn [andb].
        pose proof (login_calls env s now (on_login up) l) as Hno.
        destruct (login env s now (on_login up)) as [[s1 [t|er]] cs];
          cbn [snd] in Hno; [|done].
        destruct (getEnvOrThrow "OS_API_KEY" _); [|done].
        destruct (on_download up) as [m|dl] eqn:Hdl; cbn [snd];
          [intros Hin; not_a_file Hin|].
        destruct (negb (JS.status_ok _)) eqn:Hok; cbn [orb snd];
          [intros Hin; not_a_file Hin|].
        apply negb_false_iff in Hok.
        destruct (negb (JS.truthy _)) eqn:Hl; cbn [snd]; [intros Hin; not_a_file Hin|].
        apply negb_false_iff in Hl.
        destruct (Upstream.dr_json dl) as [j|] eqn:Hj; [|done].
        intros Hin. left.
        assert (Hl' : GetFile l = GetFile (JS.to_string (Upstream.dj_link j))).
        { repeat case_match; cbn [snd] in Hin;
            (apply elem_of_app in Hin as [Hin|Hin];
             [not_a_file Hin|by apply list_elem_of_singleton in Hin]). }
        injection Hl' as ->. by exists dl, j.
Qed.

(** ** The headers of a streamed file *)

(** X16. The headers of a file streamed by the tronapp Worker: the
    upstream's Content-Type is kept when it has one and defaults to
    text/plain otherwise; Content-Disposition and each of the four CORS
    headers have the value the Worker gives them, whatever the upstream
    sent under those names; every other header of the upstream reply is
    passed on unchanged. *)
Theorem stream_headers_frame from d :
  Http.get "Content-Type" (stream_headers from d) =
    Some (match Http.get "Content-Type" from with
          | Some ct => if JS.str_truthy ct then ct else "text/plain; charset=utf-8"
          | None => "text/plain; charset=utf-8"
          end) /\
  Http.get "Content-Disposition" (stream_headers from d) = Some d /\
  Http.get "Access-Control-Allow-Origin" (stream_headers from d) = Some "*" /\
  Http.get "Access-Control-Allow-Methods" (stream_headers from d)
    = Some "GET,POST,OPTIONS" /\
  Http.get "Access-Control-Allow-Headers" (stream_headers from d)
    = Some "Content-Type,Authorization,Api-Key,X-User-Agent,User-Agent" /\
  Http.get "Access-Control-Max-Age" (stream_headers from d) = Some "86400" /\
  (forall n,
      Http.lower n ∉ ["content-type"; "content-disposition";
                      "access-control-allow-origin"; "access-control-allow-methods";
                      "access-control-allow-headers"; "access-control-max-age"] ->
      Http.get n (stream_headers from d) = Http.get n from).
Proof.
  assert (Hct : forall h,
    Http.get "Content-Type" (CORS_HEADERS (Http.set "Content-Disposition" d h))
    = Http.get "Content-Type" h).
  { intros h. unfold CORS_HEADERS.
    by rewrite !HandlerProofs.get_set_ne by (vm_compute; discriminate). }
  assert (Hother : forall n h,
    Http.lower n ∉ ["content-type"; "content-disposition";
                    "access-control-allow-origin"; "access-control-allow-methods";
                    "access-control-allow-headers"; "access-control-max-age"] ->
    Http.get n (CORS_HEADERS (Http.set "Content-Disposition" d
                  (Http.set "Content-Type" "text/plain; charset=utf-8" h)))
    = Http.get n h /\
    Http.get n (CORS_HEADERS (Http.set "Content-Disposition" d h)) = Http.get n h).
  { intros n h Hn. rewrite !not_elem_of_cons in Hn.
    destruct Hn as (H1 & H2 & H3 & H4 & H5 & H6 & _). unfold CORS_HEADERS.
    split; by rewrite !HandlerProofs.get_set_ne by done. }
  split; [|split; [|split; [|split; [|split; [|split]]]]].
  - unfold stream_headers. cbv zeta. rewrite Hct.
    destruct (Http.get "Content-Type" from) as [ct|] eqn:E;
      [destruct (JS.str_truthy ct) eqn:Et|]; [done|..];
      apply HandlerProofs.get_set_eq.
  - apply HandlerProofs.tronapp_stream_headers.
  - unfold stream_headers, CORS_HEADERS. cbv zeta. by HandlerProofs.header_lookup.
  - unfold stream_headers, CORS_HEADERS. cbv zeta. by HandlerProofs.header_lookup.
  - unfold stream_headers, CORS_HEADERS. cbv zeta. by HandlerProofs.header_lookup.
  - unfold stream_headers, CORS_HEADERS. cbv zeta. by HandlerProofs.header_lookup.
  - intros n Hn. unfold stream_headers. cbv zeta.
    destruct (Http.get "Content-Type" from) as [ct|] eqn:E;
      [destruct (JS.str_truthy ct) eqn:Et|]; by apply Hother.
Qed.

(** ** What [handleSearch] forwards *)

Lemma set_if_elem k v ps k0 v0 :
  (k0, v0) ∈ set_if k v ps ->
  (k0 = k /\ v0 = v /\ JS.str_truthy v = true) \/ (k0, v0) ∈ ps.
Proof.
  unfold set_if. destruct (JS.str_truthy v) eqn:E; [|by right].
  intros [[-> ->]|?]%TextProofs.param_set_elem; [by left|by right].
Qed.

Lemma set_if_NoDup k v ps : NoDup ps.*1 -> NoDup (set_if k v ps).*1.
Proof.
  unfold set_if. destruct (JS.str_truthy v); [|done].
  apply TextProofs.param_set_NoDup.
Qed.

(** X17. The tronapp Worker's search forwards at most the parameters
    query, languages and page, each once; every value sent is not empty and
    is the trimmed value of the request's parameter of that name, except
    that [page] is 1 when the request gives none.  The answer repeats the
    status and the body of the upstream reply when [new Response] accepts
    that status with a body (200 to 599, except 204, 205 and 304); for any
    other status the constructor throws and [handleSearch] answers
    nothing. *)
Theorem tronapp_search_forwards_known_parameters env req up params :
  GetSubtitles params ∈ (handleSearch env req up).2 ->
  NoDup params.*1 /\
  (forall k v, (k, v) ∈ params ->
     k ∈ ["query"; "languages"; "page"] /\
     JS.str_truthy v = true /\ JS.trim v = v /\
     ((exists raw,
         Http.param_get k (Http.searchParams req) = Some raw /\ v = JS.trim raw) \/
      (k = "page" /\ v = "1" /\
       JS.or_default (Http.param_get "page" (Http.searchParams req)) "1" = "1"))) /\
  (forall r, on_search up = Upstream.Replied r ->
     ((200 <= Upstream.sr_status r <= 599)%Z /\
      Upstream.sr_status r <> 204%Z /\ Upstream.sr_status r <> 205%Z /\
      Upstream.sr_status r <> 304%Z ->
      exists resp, (handleSearch env req up).1 = inl resp /\
                   status resp = Upstream.sr_status r /\
                   body resp = JsonOf (Upstream.sr_txt r)) /\
     ((Upstream.sr_status r < 200)%Z \/ (599 < Upstream.sr_status r)%Z \/
      Upstream.sr_status r = 204%Z \/ Upstream.sr_status r = 205%Z \/
      Upstream.sr_status r = 304%Z ->
      exists er, (handleSearch env req up).1 = inr (ResponseInit er))).
Proof.
  unfold handleSearch. cbv zeta.
  destruct (negb (JS.str_truthy _)) eqn:Hq; [by intros ?%elem_of_nil|].
  apply negb_false_iff in Hq.
  destruct (getEnvOrThrow "OS_API_KEY" _); [|by intros ?%elem_of_nil].
  intros Hin.
  assert (Hp : GetSubtitles params =
               GetSubtitles
                 (set_if "page"
                    (JS.trim (JS.or_default
                       (Http.param_get "page" (Http.searchParams req)) "1"))
                    (set_if "languages"
                       (JS.trim (JS.or_default
                          (Http.param_get "languages" (Http.searchParams req))
                          EmptyString))
                       (Http.param_set "query"
                          (JS.trim (JS.or_default
                             (Http.param_get "query" (Http.searchParams req))
                             EmptyString)) [])))).
  { destruct (on_search up); cbn [snd] in Hin;
      by apply list_elem_of_singleton in Hin. }
  injection Hp as ->. clear Hin.
  assert (Hraw : forall k d,
    JS.str_truthy (JS.trim (JS.or_default
       (Http.param_get k (Http.searchParams req)) d)) = true ->
    (exists raw, Http.param_get k (Http.searchParams req) = Some raw /\
                 JS.trim (JS.or_default
                   (Http.param_get k (Http.searchParams req)) d) = JS.trim raw) \/
    JS.or_default (Http.param_get k (Http.searchParams req)) d = d).
  { intros k d _. destruct (Http.param_get k (Http.searchParams req)) as [raw|];
      [|by right]. cbn [JS.or_default].
    destruct (JS.str_truthy raw); [left; by exists raw|by right]. }
  split; [|split].
  - do 2 apply set_if_NoDup. apply NoDup_singleton.
  - intros k v Hin.
    apply set_if_elem in Hin as [(-> & -> & Ht)|Hin].
    { split; [rewrite !elem_of_cons; tauto|]. split; [done|].
      split; [apply TextProofs.trim_idem|].
      destruct (Hraw "page" "1" Ht) as [(raw & Hg & E)|E].
      - left. by exists raw.
      - right. by rewrite E. }
    apply set_if_elem in Hin as [(-> & -> & Ht)|Hin].
    { split; [rewrite !elem_of_cons; tauto|]. split; [done|].
      split; [apply TextProofs.trim_idem|].
      destruct (Hraw "languages" EmptyString Ht) as [(raw & Hg & E)|E].
      - left. by exists raw.
      - by rewrite E in Ht. }
    apply list_elem_of_singleton in Hin. injection Hin as -> ->.
    split; [rewrite !elem_of_cons; tauto|]. split; [done|].
    split; [apply TextProofs.trim_idem|].
    destruct (Hraw "query" EmptyString Hq) as [(raw & Hg & E)|E].
    + left. by exists raw.
    + by rewrite E in Hq.
  - intros r ->. cbn [fst]. unfold jsonResponse_of.
    destruct (TextProofs.response_init_spec (Upstream.sr_status r)) as [[-> H]|[er [-> H]]].
    + split; [by eexists|]. intros H'. lia.
    + split; [intros H'; lia|]. by eexists.
Qed.

Lemma tronapp_search_forwards_known_parameters_witness :
  NoDup [("query", "matrix"); ("page", "1")].*1.
Proof.
  apply (tronapp_search_forwards_known_parameters Samples.tronapp_env
           {| Http.method := "GET"; Http.pathname := "/search";
              Http.searchParams := [("query", " matrix "); ("imdb_id", "tt0133093")] |}
           (Samples.tronapp_script JS.VUndef)).
  vm_compute. apply elem_of_cons. by left.
Defined.

End TronappProofs.

(** * The Cloudflare Worker *)

Module WorkerProofs.
Import Worker.




End WorkerProofs.
